(** * AutoTY: the quote-to-short pipeline of [AutoTY.py]

    A shallow embedding of the script's functions, with the external
    services (HTTP endpoint, speech and image engines, encoder, upload API,
    file system, clock) taken as explicit inputs, and the properties of the
    pipeline proved over it. *)

From Stdlib Require Import ZArith Lia Bool List String Ascii.
From Stdlib Require Import DecimalString DecimalNat DecimalFacts.
From stdpp Require Import gmap strings list.

Local Open Scope string_scope.
Local Open Scope list_scope.
Local Open Scope Z_scope.

(** ** Python exceptions and results *)

(** The exception classes the script can meet.  [HttpError] is
    [googleapiclient.errors.HttpError] and carries [e.resp.status];
    [OSError] carries the subclass raised by [os.remove]. *)
Inductive os_error := FileNotFoundError | IsADirectoryError | PermissionError.

Inductive exn :=
  | OverflowError
  | TypeError
  | AttributeError
  | KeyError
  | ValueError
  | OSError (e : os_error)
  | RequestException          (* requests: connection error, timeout, bad status *)
  | HttpError (status : Z)
  | OtherError (name : string).

Inductive result (A : Type) :=
  | Ok (a : A)
  | Raise (e : exn).
Arguments Ok {A} a.
Arguments Raise {A} e.

Definition is_ok {A} (r : result A) : bool :=
  match r with Ok _ => true | Raise _ => false end.

(** ** Decimal formatting, as used by f-strings and [isoformat] *)

Definition str_of_nat (n : nat) : string :=
  NilZero.string_of_uint (Nat.to_uint n).

Definition str_of_Z (z : Z) : string :=
  NilZero.string_of_int (Z.to_int z).

Fixpoint zeros (k : nat) : string :=
  match k with O => "" | S k' => String "0" (zeros k') end.

(** [%0wd] for a non-negative argument. *)
Definition pad0 (w : nat) (z : Z) : string :=
  let s := str_of_Z z in
  zeros (w - String.length s) +:+ s.

(** ** The [datetime] module

    Proleptic Gregorian calendar arithmetic of the Python standard library
    ([_is_leap], [_days_before_year], [_ymd2ord], [_ord2ymd],
    [timedelta], [datetime.__add__], [datetime.isoformat]). *)
Module Datetime.

Definition MINYEAR : Z := 1.
Definition MAXYEAR : Z := 9999.
Definition MAXORDINAL : Z := 3652059.

Definition DI400Y : Z := 146097.
Definition DI100Y : Z := 36524.
Definition DI4Y : Z := 1461.

Definition is_leap (year : Z) : bool :=
  (year mod 4 =? 0) && (negb (year mod 100 =? 0) || (year mod 400 =? 0)).

Definition DAYS_IN_MONTH (month : Z) : Z :=
  match month with
  | 1 => 31 | 2 => 28 | 3 => 31 | 4 => 30 | 5 => 31 | 6 => 30
  | 7 => 31 | 8 => 31 | 9 => 30 | 10 => 31 | 11 => 30 | 12 => 31
  | _ => -1
  end.

Definition DAYS_BEFORE_MONTH (month : Z) : Z :=
  match month with
  | 1 => 0 | 2 => 31 | 3 => 59 | 4 => 90 | 5 => 120 | 6 => 151
  | 7 => 181 | 8 => 212 | 9 => 243 | 10 => 273 | 11 => 304 | 12 => 334
  | _ => -1
  end.

Definition days_before_year (year : Z) : Z :=
  let y := year - 1 in
  y * 365 + y / 4 - y / 100 + y / 400.

Definition days_in_month (year month : Z) : Z :=
  if (month =? 2) && is_leap year then 29 else DAYS_IN_MONTH month.

Definition days_before_month (year month : Z) : Z :=
  DAYS_BEFORE_MONTH month + (if (2 <? month) && is_leap year then 1 else 0).

Definition ymd2ord (year month day : Z) : Z :=
  days_before_year year + days_before_month year month + day.

Definition ord2ymd (n0 : Z) : Z * Z * Z :=
  let n := n0 - 1 in
  let n400 := n / DI400Y in
  let n := n mod DI400Y in
  let year := n400 * 400 + 1 in
  let n100 := n / DI100Y in
  let n := n mod DI100Y in
  let n4 := n / DI4Y in
  let n := n mod DI4Y in
  let n1 := n / 365 in
  let n := n mod 365 in
  let year := year + (n100 * 100 + n4 * 4 + n1) in
  if (n1 =? 4) || (n100 =? 4) then (year - 1, 12, 31)
  else
    let leapyear := (n1 =? 3) && (negb (n4 =? 24) || (n100 =? 3)) in
    let month := Z.shiftr (n + 50) 5 in
    let preceding :=
      DAYS_BEFORE_MONTH month + (if (2 <? month) && leapyear then 1 else 0) in
    if n <? preceding then
      let month := month - 1 in
      let preceding :=
        preceding - (DAYS_IN_MONTH month
                     + (if (month =? 2) && leapyear then 1 else 0)) in
      (year, month, n - preceding + 1)
    else (year, month, n - preceding + 1).


Record datetime := mk_datetime {
  year : Z; month : Z; day : Z;
  hour : Z; minute : Z; second : Z; microsecond : Z
}.

Record timedelta := mk_timedelta {
  td_days : Z; td_seconds : Z; td_microseconds : Z
}.


Definition valid_date (y m d : Z) : Prop :=
  MINYEAR <= y <= MAXYEAR /\ 1 <= m <= 12 /\ 1 <= d <= days_in_month y m.

Definition valid_datetime (dt : datetime) : Prop :=
  valid_date (year dt) (month dt) (day dt)
  /\ 0 <= hour dt < 24 /\ 0 <= minute dt < 60 /\ 0 <= second dt < 60
  /\ 0 <= microsecond dt < 1000000.

Definition toordinal (dt : datetime) : Z :=
  ymd2ord (year dt) (month dt) (day dt).

(** [timedelta(days=…, seconds=…, microseconds=…, minutes=…, hours=…)]
    on integer arguments: carries are normalised so that
    [0 <= seconds < 86400] and [0 <= microseconds < 1000000]. *)
Definition timedelta_new (days seconds microseconds minutes hours : Z)
  : result timedelta :=
  let s := seconds + minutes * 60 + hours * 3600 in
  let d := days + s / 86400 in
  let s := s mod 86400 in
  let s := s + microseconds / 1000000 in
  let us := microseconds mod 1000000 in
  let d := d + s / 86400 in
  let s := s mod 86400 in
  if Z.abs d >? 999999999 then Raise OverflowError
  else Ok (mk_timedelta d s us).

Definition timedelta_add (a b : timedelta) : result timedelta :=
  timedelta_new (td_days a + td_days b) (td_seconds a + td_seconds b)
                (td_microseconds a + td_microseconds b) 0 0.

(** [datetime.__add__(self, other)] *)
Definition datetime_add (self : datetime) (other : timedelta)
  : result datetime :=
  match timedelta_new (toordinal self) (second self) (microsecond self)
                      (minute self) (hour self) with
  | Raise e => Raise e
  | Ok delta =>
    match timedelta_add delta other with
    | Raise e => Raise e
    | Ok delta =>
      let hour := td_seconds delta / 3600 in
      let rem := td_seconds delta mod 3600 in
      let minute := rem / 60 in
      let second := rem mod 60 in
      if (0 <? td_days delta) && (td_days delta <=? MAXORDINAL) then
        let '(y, m, d) := ord2ymd (td_days delta) in
        Ok (mk_datetime y m d hour minute second (td_microseconds delta))
      else Raise OverflowError
    end
  end.

(** [self.replace(hour=…, minute=…, second=…, microsecond=…)] *)
Definition replace_time (self : datetime) (h mi s us : Z) : datetime :=
  mk_datetime (year self) (month self) (day self) h mi s us.

(** [datetime.isoformat()] of a naive datetime. *)
Definition isoformat (dt : datetime) : string :=
  pad0 4 (year dt) +:+ "-" +:+ pad0 2 (month dt) +:+ "-" +:+ pad0 2 (day dt)
  +:+ "T" +:+ pad0 2 (hour dt) +:+ ":" +:+ pad0 2 (minute dt)
  +:+ ":" +:+ pad0 2 (second dt)
  +:+ (if microsecond dt =? 0 then "" else "." +:+ pad0 6 (microsecond dt)).

End Datetime.

(** ** Scheduling (lines 175 and 190-194 of [main]) *)

(** [start = utcnow().replace(hour=9, minute=0, second=0, microsecond=0)] *)
Definition start_of (now : Datetime.datetime) : Datetime.datetime :=
  Datetime.replace_time now 9 0 0 0.

(** [(start + timedelta(days=day_offset, hours=slot*2))] for item [idx]. *)
Definition publish_datetime (start : Datetime.datetime) (idx : nat)
  : result Datetime.datetime :=
  let day_offset := Z.of_nat idx / 5 in
  let slot := Z.of_nat idx mod 5 in
  match Datetime.timedelta_new day_offset 0 0 0 (slot * 2) with
  | Raise e => Raise e
  | Ok td => Datetime.datetime_add start td
  end.

(** [publish_time], the string passed to the upload. *)
Definition publish_time (start : Datetime.datetime) (idx : nat) : result string :=
  match publish_datetime start idx with
  | Raise e => Raise e
  | Ok dt => Ok (Datetime.isoformat dt +:+ "Z")
  end.

(** ** Python strings

    Strings are kept as their UTF-8 bytes.  The only non-ASCII character the
    script writes is the em dash of the quote line. *)

Definition em_dash : string := String "226" (String "128" (String "148" "")).
Definition newline : string := String "010" "".
Definition dquote : string := String "034" "".

(** [s.replace(old, new)]: occurrences of [old] are replaced left to right,
    without overlap.  [skip] counts the characters of a matched occurrence
    that are still to be dropped. *)
Fixpoint str_replace_go (old new : string) (skip : nat) (s : string) : string :=
  match s with
  | EmptyString => ""
  | String c s' =>
    match skip with
    | S k => str_replace_go old new k s'
    | O =>
      if String.prefix old s
      then new +:+ str_replace_go old new (String.length old - 1)%nat s'
      else String c (str_replace_go old new 0%nat s')
    end
  end.

Definition str_replace (old new s : string) : string :=
  str_replace_go old new 0%nat s
  +:+ (match old with EmptyString => new | _ => "" end).

(** [sep.join(parts)] *)
Fixpoint str_join (sep : string) (parts : list string) : string :=
  match parts with
  | [] => ""
  | [p] => p
  | p :: rest => p +:+ sep +:+ str_join sep rest
  end.

(** [s.lstrip(c)], [s.rstrip(c)] and [s.strip(c)] for a one-character [c]. *)
Fixpoint str_lstrip (c : ascii) (s : string) : string :=
  match s with
  | EmptyString => ""
  | String a s' => if Ascii.eqb a c then str_lstrip c s' else s
  end.

Fixpoint str_rstrip (c : ascii) (s : string) : string :=
  match s with
  | EmptyString => ""
  | String a s' =>
    match str_rstrip c s' with
    | EmptyString => if Ascii.eqb a c then "" else String a ""
    | t => String a t
    end
  end.

Definition str_strip (c : ascii) (s : string) : string :=
  str_rstrip c (str_lstrip c s).

(** The characters of [s] other than [c], in order: what removing every
    occurrence of a character means. *)
Fixpoint str_remove_char (c : ascii) (s : string) : string :=
  match s with
  | EmptyString => ""
  | String a s' =>
    if Ascii.eqb a c then str_remove_char c s' else String a (str_remove_char c s')
  end.

Fixpoint str_mem (c : ascii) (s : string) : bool :=
  match s with
  | EmptyString => false
  | String a s' => Ascii.eqb a c || str_mem c s'
  end.

(** ** Python values

    What [response.json()] can return, which is also what the entries the
    script builds can hold. *)
#[local] Unset Elimination Schemes.
Inductive json :=
  | JNull
  | JBool (b : bool)
  | JNum (n : Z)
  | JFloat (repr : string)     (* a float, kept by its [repr] *)
  | JStr (s : string)
  | JArr (l : list json)
  | JObj (m : gmap string json).
#[local] Set Elimination Schemes.

Abbreviation pydict := (gmap string json).

(** [d[k]] on a dict. *)
Definition dict_getitem (d : pydict) (k : string) : result json :=
  match d !! k with
  | Some v => Ok v
  | None => Raise KeyError
  end.

(** [item.get(k, default)]: only a dict has the method. *)
Definition py_get (item : json) (k : string) (default : json) : result json :=
  match item with
  | JObj m => Ok (match m !! k with Some v => v | None => default end)
  | _ => Raise AttributeError
  end.

(** [seq[:stop]] on a list of known length: a negative [stop] counts from
    the end. *)
Definition slice_to {A} (stop : Z) (l : list A) : list A :=
  if stop <? 0
  then take (Z.to_nat (Z.of_nat (length l) + stop)) l
  else take (Z.to_nat stop) l.

Definition chars (s : string) : list json :=
  map (fun c => JStr (String c "")) (list_ascii_of_string s).

(** The items of [data[:stop]], as the comprehension iterates over them.
    Lists and strings can be sliced, the other values raise. *)
Definition py_slice_items (data : json) (stop : Z) : result (list json) :=
  match data with
  | JArr l => Ok (slice_to stop l)
  | JStr s => Ok (slice_to stop (chars s))
  | JObj _ => Raise KeyError      (* [TypeError] before Python 3.12 *)
  | _ => Raise TypeError
  end.

(** Evaluation of a list comprehension whose element expression can raise. *)
Fixpoint map_result {A B} (f : A -> result B) (l : list A) : result (list B) :=
  match l with
  | [] => Ok []
  | x :: rest =>
    match f x with
    | Raise e => Raise e
    | Ok y =>
      match map_result f rest with
      | Raise e => Raise e
      | Ok ys => Ok (y :: ys)
      end
    end
  end.

(** ** 1. Quotes (lines 63-67) *)

(** [{"quote": item.get("q", ""), "author": item.get("a", "")}] *)
Definition quote_entry (item : json) : result pydict :=
  match py_get item "q" (JStr "") with
  | Raise e => Raise e
  | Ok q =>
    match py_get item "a" (JStr "") with
    | Raise e => Raise e
    | Ok a => Ok (<["author" := a]> (<["quote" := q]> ∅))
    end
  end.

(** The last line of [fetch_quotes], on the decoded response [data]. *)
Definition quotes_of_json (data : json) (max_entries : Z) : result (list pydict) :=
  match py_slice_items data max_entries with
  | Raise e => Raise e
  | Ok items => map_result quote_entry items
  end.

(** ** 5. Hashtags (lines 115-118) *)

Definition base_tags : list string :=
  ["Inspiration"; "Motivation"; "DailyQuote"; "Viral"; "Shorts"].

Definition generate_hashtags (entry : pydict) : result (list string) :=
  match dict_getitem entry "author" with
  | Raise e => Raise e
  | Ok (JStr author) =>
    let author_tag := str_replace " " "" author in
    Ok (map (fun t => "#" +:+ t) (base_tags ++ [author_tag]))
  | Ok _ => Raise AttributeError
  end.

(** ** 6. Thumbnail geometry (lines 129-132) *)

(** [bbox] is what [draw.textbbox((0,0), title, font, stroke_width=2)]
    returned: left, top, right, bottom. *)
Definition bbox_t : Type := Z * Z * Z * Z.

Definition bbox_width (b : bbox_t) : Z :=
  let '(l, _, r, _) := b in r - l.

Definition bbox_height (b : bbox_t) : Z :=
  let '(_, t, _, bt) := b in bt - t.

Definition thumbnail_xy (iw ih : Z) (bbox : bbox_t) : Z * Z :=
  let tw := bbox_width bbox in
  let th := bbox_height bbox in
  ((iw - tw) / 2, ih - th - 50).

(** ** The outside world

    Everything the script does to its surroundings is recorded as an event;
    the file system and the calls made so far are the state. *)

Inductive content := Blob | Pickled (valid expired refresh_token : bool).

Inductive node :=
  | Regular (c : content)
  | Protected (c : content)     (* cannot be written or unlinked *)
  | Directory.

(** [google.oauth2.credentials.Credentials], by the three attributes read. *)
Record credentials := mk_creds {
  cr_valid : bool; cr_expired : bool; cr_refresh_token : bool
}.

Inductive font := TrueType (name : string) (size : Z) | DefaultFont.

Record upload_body := mk_body {
  channelId : string;
  b_title : string;
  description : string;
  b_tags : list string;
  privacyStatus : string;
  publishAt : string;
  selfDeclaredMadeForKids : bool
}.

Inductive event :=
  | EvGet (url : string)
  | EvSynthesize (text out_path : string)
  | EvBroll (entry : pydict) (out_path : string)
  | EvAssemble (voice_fp slide_fp out_fp : string)
  | EvDrawText (x y : Z) (text : string) (f : font)
  | EvSave (out_path : string)
  | EvRefresh
  | EvFlow
  | EvBuild (c : credentials)
  | EvInsert (body : upload_body) (media : string)
  | EvPrint (msg : string)
  | EvRemove (path : string).

Record world := mk_world {
  fs : gmap string node;
  log : list event          (* oldest first *)
}.

(** The answers of the services the script calls.  Each may depend on
    everything that happened before the call. *)
Record oracle := mk_oracle {
  utcnow : world -> Datetime.datetime;
  requests_get : world -> string -> result (Z * result json);
                                   (* status code and [response.json()] *)
  gtts_save : world -> string -> string -> option exn;
  sd_pipe : world -> option exn;
  broll_render : world -> pydict -> string -> option exn;
  moviepy_write : world -> string -> string -> string -> option exn;
  image_open : world -> string -> result (Z * Z);        (* [img.size] *)
  truetype : world -> string -> Z -> result font;
  textbbox : font -> string -> Z -> bbox_t;
  image_save : world -> string -> option exn;
  creds_refresh : world -> credentials -> result credentials;
  run_local_server : world -> result credentials;
  build : world -> credentials -> option exn;
  videos_insert : world -> upload_body -> string -> result pydict;
  py_repr : json -> string   (* [str()] of a number list or dict *)
}.

(** ** Effectful code: state and exceptions *)

Definition M (A : Type) : Type := world -> result A * world.

Definition ret {A} (a : A) : M A := fun w => (Ok a, w).

Definition raise {A} (e : exn) : M A := fun w => (Raise e, w).

Definition bind {A B} (m : M A) (k : A -> M B) : M B :=
  fun w =>
    match m w with
    | (Ok a, w') => k a w'
    | (Raise e, w') => (Raise e, w')
    end.

Declare Scope py_scope.
Delimit Scope py_scope with py.
Notation "x <- m ;; k" := (bind m (fun x => k))
  (at level 100, m at next level, right associativity) : py_scope.
Notation "m ;;; k" := (bind m (fun _ => k))
  (at level 100, right associativity) : py_scope.
Local Open Scope py_scope.

Definition lift {A} (r : result A) : M A := fun w => (r, w).

Definition get_world : M world := fun w => (Ok w, w).

Definition emit (e : event) : M unit :=
  fun w => (Ok tt, mk_world (fs w) (log w ++ [e])).

Definition print (msg : string) : M unit := emit (EvPrint msg).

(** [try: body  except <classes matched by handler>: …]; an exception the
    handler does not take goes on. *)
Definition try_except {A} (body : M A) (handler : exn -> option (M A)) : M A :=
  fun w =>
    match body w with
    | (Ok a, w') => (Ok a, w')
    | (Raise e, w') =>
      match handler e with
      | Some h => h w'
      | None => (Raise e, w')
      end
    end.

(** A call to an outside engine that answers with an optional exception. *)
Definition external (ans : world -> option exn) : M unit :=
  fun w => match ans w with Some e => (Raise e, w) | None => (Ok tt, w) end.

Definition external_val {A} (ans : world -> result A) : M A :=
  fun w => (ans w, w).

(** *** File system *)

(** A path with a NUL character is refused by every [os] call before the
    file system is looked at. *)
Definition has_nul (p : string) : bool := str_mem "000" p.

(** Creating or overwriting the file at [p]. *)
Definition write_file (p : string) (c : content) : M unit :=
  fun w =>
    if has_nul p then (Raise ValueError, w)
    else
      match fs w !! p with
      | Some Directory => (Raise (OSError IsADirectoryError), w)
      | Some (Protected _) => (Raise (OSError PermissionError), w)
      | _ => (Ok tt, mk_world (<[p := Regular c]> (fs w)) (log w))
      end.

(** [os.remove(path)] *)
Definition os_remove (p : string) : M unit :=
  emit (EvRemove p) ;;;
  fun w =>
    if has_nul p then (Raise ValueError, w)
    else
      match fs w !! p with
      | None => (Raise (OSError FileNotFoundError), w)
      | Some Directory => (Raise (OSError IsADirectoryError), w)
      | Some (Protected _) => (Raise (OSError PermissionError), w)
      | Some (Regular _) => (Ok tt, mk_world (delete p (fs w)) (log w))
      end.

(** [os.path.exists(path)] *)
Definition path_exists (p : string) : M bool :=
  fun w => (Ok (bool_decide (is_Some (fs w !! p))), w).

(** [os.path.join(OUTPUT_DIR, name)] for a relative [name]. *)
Definition OUTPUT_DIR : string := "temp".
Definition path_join (dir name : string) : string := dir +:+ "/" +:+ name.

(** Configuration constants. *)
Definition QUOTES_API_URL : string := "https://zenquotes.io/api/quotes".
Definition TEMPLATE_THUMB : string := "resources/templates/thumbnail.png".
Definition CHANNEL_ID : string := "#################".
Definition TOKEN_FILE : string := "token.pickle".

(** ** The pipeline *)
Section Pipeline.

Variable O : oracle.

(** [str(v)], as an f-string or [print] formats a value. *)
Definition py_str (v : json) : string :=
  match v with
  | JStr s => s
  | JNull => "None"
  | JBool true => "True"
  | JBool false => "False"
  | JNum n => str_of_Z n
  | JFloat r => r
  | _ => py_repr O v
  end.

(** *** 1. [fetch_quotes] *)
Definition fetch_quotes (max_entries : Z) : M (list pydict) :=
  emit (EvGet QUOTES_API_URL) ;;;
  response <- external_val (fun w => requests_get O w QUOTES_API_URL) ;;
  let '(status_code, body) := response in
  (if (400 <=? status_code) && (status_code <? 600)
   then raise RequestException else ret tt) ;;;
  data <- lift body ;;
  lift (quotes_of_json data max_entries).

(** *** 2. [synthesize_voice] *)
Definition synthesize_voice (text out_path : string) : M unit :=
  emit (EvSynthesize text out_path) ;;;
  external (fun w => gtts_save O w text out_path) ;;;
  write_file out_path Blob.

(** *** 3. [generate_broll_slide]: the image model runs first, then the
    quote line is read from the entry, drawn and encoded.  The wrapping and
    drawing of the lines, the frame file and the encoder are one engine
    call, [broll_render]. *)
Definition generate_broll_slide (entry : pydict) (out_path : string) : M unit :=
  emit (EvBroll entry out_path) ;;;
  external (sd_pipe O) ;;;
  _ <- lift (dict_getitem entry "quote") ;;
  _ <- lift (dict_getitem entry "author") ;;
  external (fun w => broll_render O w entry out_path) ;;;
  write_file out_path Blob.

(** *** 4. [assemble_video] *)
Definition assemble_video (voice_fp slide_fp out_fp : string) : M unit :=
  emit (EvAssemble voice_fp slide_fp out_fp) ;;;
  external (fun w => moviepy_write O w voice_fp slide_fp out_fp) ;;;
  write_file out_fp Blob.

(** *** 6. [create_thumbnail] *)
Definition is_os_error (e : exn) : bool :=
  match e with OSError _ => true | _ => false end.

Definition load_font (name : string) (size : Z) : M font :=
  try_except (external_val (fun w => truetype O w name size))
             (fun e => if is_os_error e then Some (ret DefaultFont) else None).

Definition create_thumbnail (title template out_path : string) : M unit :=
  size <- external_val (fun w => image_open O w template) ;;
  f <- load_font "arial.ttf" 52 ;;
  let '(iw, ih) := size in
  let bbox := textbbox O f title 2 in
  let '(x, y) := thumbnail_xy iw ih bbox in
  emit (EvDrawText x y title f) ;;;
  emit (EvSave out_path) ;;;
  external (fun w => image_save O w out_path) ;;;
  write_file out_path Blob.

(** *** 7. [get_authenticated_service] *)
Definition pickle_load (p : string) : M credentials :=
  fun w =>
    match fs w !! p with
    | Some (Regular (Pickled v e r)) | Some (Protected (Pickled v e r)) =>
      (Ok (mk_creds v e r), w)
    | Some (Regular Blob) | Some (Protected Blob) =>
      (Raise (OtherError "UnpicklingError"), w)
    | Some Directory => (Raise (OSError IsADirectoryError), w)
    | None => (Raise (OSError FileNotFoundError), w)
    end.

Definition pickle_dump (c : credentials) (p : string) : M unit :=
  write_file p (Pickled (cr_valid c) (cr_expired c) (cr_refresh_token c)).

Definition get_authenticated_service : M credentials :=
  present <- path_exists TOKEN_FILE ;;
  creds <- (if present : bool
            then (c <- pickle_load TOKEN_FILE ;; ret (Some c))
            else ret None) ;;
  creds <-
    match creds with
    | Some c =>
      if cr_valid c then ret c
      else
        c' <- (if cr_expired c && cr_refresh_token c
               then emit EvRefresh ;;;
                    external_val (fun w => creds_refresh O w c)
               else emit EvFlow ;;; external_val (run_local_server O)) ;;
        pickle_dump c' TOKEN_FILE ;;; ret c'
    | None =>
      c' <- (emit EvFlow ;;; external_val (run_local_server O)) ;;
      pickle_dump c' TOKEN_FILE ;;; ret c'
    end ;;
  emit (EvBuild creds) ;;;
  external (fun w => build O w creds) ;;;
  ret creds.

(** *** 8. [upload_video] *)
Definition REMEDIATION : string :=
  newline +:+ "ERROR: YouTube Data API not enabled." +:+ newline
  +:+ String "226" (String "134" (String "146" ""))
  +:+ " Enable at: https://console.developers.google.com/apis/api/youtube.googleapis.com/overview?project=YOUR_PROJECT_ID"
  +:+ newline.

(** [MediaFileUpload(video_fp, …)] opens the file for reading. *)
Definition media_file_upload (p : string) : M unit :=
  fun w =>
    match fs w !! p with
    | None => (Raise (OSError FileNotFoundError), w)
    | Some Directory => (Raise (OSError IsADirectoryError), w)
    | Some _ => (Ok tt, w)
    end.

(** The body of the [try] (lines 161-162). *)
Definition insert_and_report (body : upload_body) (video_fp : string) : M unit :=
  emit (EvInsert body video_fp) ;;;
  res <- external_val (fun w => videos_insert O w body video_fp) ;;
  id <- lift (dict_getitem res "id") ;;
  print ("Uploaded video ID: " +:+ py_str id).

(** The [except HttpError as e] clause (lines 163-170). *)
Definition on_http_error (e : exn) : option (M unit) :=
  match e with
  | HttpError status =>
    Some (if status =? 403 then print REMEDIATION else raise e)
  | _ => None
  end.

Definition upload_video (video_fp title desc : string) (tags : list string)
           (publish_at : string) : M unit :=
  _ <- get_authenticated_service ;;
  let body := mk_body CHANNEL_ID title desc tags "private" publish_at false in
  media_file_upload video_fp ;;;
  try_except (insert_and_report body video_fp) on_http_error.

(** *** Clean-up (lines 201-203) *)
Fixpoint cleanup (paths : list string) : M unit :=
  match paths with
  | [] => ret tt
  | path :: rest =>
    try_except (os_remove path)
               (fun e => if is_os_error e then Some (ret tt) else None) ;;;
    cleanup rest
  end.

(** *** [main] *)
Definition voice_path (idx : nat) : string :=
  path_join OUTPUT_DIR ("voice_" +:+ str_of_nat idx +:+ ".mp3").
Definition slide_path (idx : nat) : string :=
  path_join OUTPUT_DIR ("slide_" +:+ str_of_nat idx +:+ ".mp4").
Definition video_path (idx : nat) : string :=
  path_join OUTPUT_DIR ("video_" +:+ str_of_nat idx +:+ ".mp4").
Definition thumb_path (idx : nat) : string :=
  path_join OUTPUT_DIR ("thumb_" +:+ str_of_nat idx +:+ ".png").

Definition artifact_paths (idx : nat) : list string :=
  [voice_path idx; slide_path idx; video_path idx; thumb_path idx].

Definition quote_line (quote author : json) : string :=
  dquote +:+ py_str quote +:+ dquote +:+ " " +:+ em_dash +:+ " " +:+ py_str author.

(** What one iteration hands to [upload_video]. *)
Record upload_args := mk_args {
  a_video_fp : string;
  a_title : string;
  a_desc : string;
  a_tags : list string;
  a_publish_at : string
}.

(** One iteration of the loop up to the call of [upload_video]
    (lines 177-198): media, schedule and metadata. *)
Definition prepare_item (start : Datetime.datetime) (idx : nat)
           (entry : pydict) : M upload_args :=
  author <- lift (dict_getitem entry "author") ;;
  let title := "Inspiration: " +:+ py_str author in
  quote <- lift (dict_getitem entry "quote") ;;
  let quote_text := quote_line quote author in
  synthesize_voice quote_text (voice_path idx) ;;;
  generate_broll_slide entry (slide_path idx) ;;;
  assemble_video (voice_path idx) (slide_path idx) (video_path idx) ;;;
  create_thumbnail title TEMPLATE_THUMB (thumb_path idx) ;;;
  publish_at <- lift (publish_time start idx) ;;
  hashtags <- lift (generate_hashtags entry) ;;
  let desc := quote_text +:+ newline +:+ newline +:+ str_join " " hashtags in
  let tags := map (str_strip "#") hashtags in
  ret (mk_args (video_path idx) title desc tags publish_at).

(** The whole loop body (lines 177-203). *)
Definition process_item (start : Datetime.datetime) (idx : nat)
           (entry : pydict) : M unit :=
  args <- prepare_item start idx entry ;;
  upload_video (a_video_fp args) (a_title args) (a_desc args) (a_tags args)
               (a_publish_at args) ;;;
  cleanup (artifact_paths idx).

(** [for idx, entry in enumerate(quotes)], from index [idx] on. *)
Fixpoint main_loop (start : Datetime.datetime) (idx : nat)
         (quotes : list pydict) : M unit :=
  match quotes with
  | [] => ret tt
  | entry :: rest =>
    process_item start idx entry ;;;
    main_loop start (S idx) rest
  end.

Definition main : M unit :=
  quotes <- fetch_quotes 10 ;;
  w <- get_world ;;
  let start := start_of (utcnow O w) in
  main_loop start 0 quotes.

End Pipeline.

(** ** Reference notions used in the statements *)

(** The entry the comprehension builds from a response object. *)
Definition entry_of (m : pydict) : pydict :=
  <["author" := default (JStr "") (m !! "a")]>
    (<["quote" := default (JStr "") (m !! "q")]> ∅).

Definition is_str (v : json) : bool :=
  match v with JStr _ => true | _ => false end.

(** Both fields of an entry are present and are strings. *)
Definition fields_are_strings (e : pydict) : Prop :=
  (exists q, e !! "quote" = Some (JStr q))
  /\ (exists a, e !! "author" = Some (JStr a)).

(** The tag list for an author name without its spaces. *)
Definition expected_hashtags (author : string) : list string :=
  ["#Inspiration"; "#Motivation"; "#DailyQuote"; "#Viral"; "#Shorts";
   "#" +:+ str_remove_char " " author].

(** Number of client constructions ([build(...)]) recorded in a log. *)
Definition is_build (e : event) : bool :=
  match e with EvBuild _ => true | _ => false end.

Definition builds (l : list event) : nat := length (filter is_build l).

(** The world a computation leaves and the result it gives. *)
Definition result_of {A} (m : M A) (w : world) : result A := fst (m w).
Definition world_after {A} (m : M A) (w : world) : world := snd (m w).

(** Whatever [m] does, it only appends events to the log, and the events it
    appends satisfy [P]. *)
Definition logs {A} (P : list event -> Prop) (m : M A) : Prop :=
  forall w, exists evs, log (world_after m w) = log w ++ evs /\ P evs.

(** A property of event lists that holds of the empty list and is kept by
    concatenation. *)
Definition closed (P : list event -> Prop) : Prop :=
  P [] /\ forall a b, P a -> P b -> P (a ++ b).

Definition no_events (evs : list event) : Prop := evs = [].
Definition no_build (evs : list event) : Prop := builds evs = 0%nat.
Definition any_events (evs : list event) : Prop := True.

(** The world after one more event. *)
Definition with_event (w : world) (e : event) : world :=
  mk_world (fs w) (log w ++ [e]).

(** What a swallowed [os.remove(p)] leaves of the file system: a regular
    file is unlinked, anything else stays. *)
Definition unlink (p : string) (m : gmap string node) : gmap string node :=
  match m !! p with
  | Some (Regular _) => delete p m
  | _ => m
  end.

Definition unlink_all (paths : list string) (m : gmap string node)
  : gmap string node :=
  foldl (fun m p => unlink p m) m paths.

(** No regular file is left at [p]. *)
Definition not_regular (m : gmap string node) (p : string) : Prop :=
  forall c, m !! p <> Some (Regular c).

(** When [m] returns normally it has added exactly [n] client
    constructions to the log. *)
Definition adds_builds {A} (n : nat) (m : M A) : Prop :=
  forall w, is_ok (result_of m w) = true ->
            builds (log (world_after m w)) = (builds (log w) + n)%nat.

(** The first thing [m] does is to log [e]. *)
Definition starts_with {A} (e : event) (m : M A) : Prop :=
  forall w, exists evs, log (world_after m w) = log w ++ e :: evs.

(** The request body of [upload_video]. *)
Definition body_of (title desc : string) (tags : list string)
           (publish_at : string) : upload_body :=
  mk_body CHANNEL_ID title desc tags "private" publish_at false.

(** A world in which the assembled video of item 0 exists. *)
Definition world_with_video : world :=
  mk_world (<["temp/video_0.mp4" := Regular Blob]> ∅) [].

(** ** A scripted environment for concrete runs

    Every engine succeeds; the quote endpoint answers [response] and the
    upload API answers [insert body]. *)
Definition scripted (now : Datetime.datetime)
           (response : result (Z * result json))
           (insert : upload_body -> result pydict) : oracle :=
  {| utcnow := fun _ => now;
     requests_get := fun _ _ => response;
     gtts_save := fun _ _ _ => None;
     sd_pipe := fun _ => None;
     broll_render := fun _ _ _ => None;
     moviepy_write := fun _ _ _ _ => None;
     image_open := fun _ _ => Ok (1280, 720);
     truetype := fun _ name size => Ok (TrueType name size);
     textbbox := fun _ text _ => (0, 0, 24 * Z.of_nat (String.length text), 52);
     image_save := fun _ _ => None;
     creds_refresh := fun _ _ => Ok (mk_creds true false true);
     run_local_server := fun _ => Ok (mk_creds true false true);
     build := fun _ _ => None;
     videos_insert := fun _ body _ => insert body;
     py_repr := fun _ => "" |}.

Definition empty_world : world := mk_world ∅ [].

Definition some_day : Datetime.datetime :=
  Datetime.mk_datetime 2024 2 28 14 23 45 123456.

Definition quote_obj (q a : string) : json :=
  JObj (<["a" := JStr a]> (<["q" := JStr q]> ∅)).

Definition two_quotes : json :=
  JArr [quote_obj "Stay curious." "Maya Angelou";
        quote_obj "Begin anyway." "Lao Tzu"].

Definition uploaded : result pydict := Ok (<["id" := JStr "vid"]> ∅).

(** The upload of the first item is refused with status 403, the others
    succeed. *)
Definition refuse_first (body : upload_body) : result pydict :=
  if String.eqb (b_title body) "Inspiration: Maya Angelou"
  then Raise (HttpError 403) else uploaded.

(** Eleven response objects, one more than a run consumes. *)
Definition eleven_objects : list pydict :=
  map (fun i => <["a" := JStr ("author " +:+ str_of_nat i)]>
                  (<["q" := JStr ("quote " +:+ str_of_nat i)]> ∅))
      (seq 0 11).

(** A response object whose quote is [null]. *)
Definition null_quote : json := JObj (<["q" := JNull]> ∅).

(** The world in which [requests.get] is answered. *)
Definition world_at_get (w : world) : world :=
  mk_world (fs w) (log w ++ [EvGet QUOTES_API_URL]).

(** [raise_for_status] lets the status code pass. *)
Definition status_ok (status_code : Z) : bool :=
  negb ((400 <=? status_code) && (status_code <? 600)).

(** The two runs used below: two quotes, every upload accepted, or the
    first one refused. *)
Definition accepting : oracle :=
  scripted some_day (Ok (200, Ok two_quotes)) (fun _ => uploaded).

Definition refusing_first : oracle :=
  scripted some_day (Ok (200, Ok two_quotes)) refuse_first.

(** The entries of the two quotes. *)
Definition maya_entry : pydict :=
  <["author" := JStr "Maya Angelou"]> (<["quote" := JStr "Stay curious."]> ∅).

Definition lao_entry : pydict :=
  <["author" := JStr "Lao Tzu"]> (<["quote" := JStr "Begin anyway."]> ∅).

(** ** Bounded checks used by the calendar proofs *)

(** [P lo], [P (lo+1)], … for [fuel] consecutive integers. *)
Fixpoint all_from (fuel : nat) (lo : Z) (P : Z -> bool) : bool :=
  match fuel with
  | O => true
  | S f => if P lo then all_from f (lo + 1) P else false
  end.

(** A date moved by [q] cycles of 400 years. *)
Definition shift_years (q : Z) (t : Z * Z * Z) : Z * Z * Z :=
  let '(y, m, d) := t in (y + 400 * q, m, d).

(** The extra day a leap year contributes. *)
Definition leap_day (b : bool) : Z := if b then 1 else 0.

(** The tail of [_ord2ymd]: month and day of the [k]-th day (from 0) of a
    year. *)
Definition month_day (k : Z) (leap : bool) : Z * Z :=
  let month := Z.shiftr (k + 50) 5 in
  let preceding :=
    Datetime.DAYS_BEFORE_MONTH month + (if (2 <? month) && leap then 1 else 0) in
  if k <? preceding then
    let month := month - 1 in
    let preceding :=
      preceding - (Datetime.DAYS_IN_MONTH month
                   + (if (month =? 2) && leap then 1 else 0)) in
    (month, k - preceding + 1)
  else (month, k - preceding + 1).

(** [month_day] lands on a day of the month it names, [k] days into the
    year. *)
Definition month_day_ok (leap : bool) (k : Z) : bool :=
  let '(m, d) := month_day k leap in
  (1 <=? m) && (m <=? 12) && (1 <=? d)
  && (d <=? Datetime.DAYS_IN_MONTH m + leap_day ((m =? 2) && leap))
  && (Datetime.DAYS_BEFORE_MONTH m + leap_day ((2 <? m) && leap) + d =? k + 1).

(** ** 3. The text of a slide (lines 88-101)

    The part of [generate_broll_slide] that lays the quote out: the text is
    cut at newlines, each paragraph is wrapped by [textwrap.wrap] (taken as
    [wrap]), and the lines are drawn from the top until one ends too low. *)

(** [s.split(c)] for a one-character separator. *)
Fixpoint str_split (c : ascii) (s : string) : list string :=
  match s with
  | EmptyString => [""]
  | String a s' =>
    if Ascii.eqb a c then "" :: str_split c s'
    else match str_split c s' with
         | piece :: rest => String a piece :: rest
         | [] => [String a ""]
         end
  end.

(** [lines += textwrap.wrap(para, width=30) or [""]] over the paragraphs. *)
Fixpoint wrap_paragraphs (wrap : string -> list string) (paras : list string)
  : list string :=
  match paras with
  | [] => []
  | para :: rest =>
    (match wrap para with [] => [""] | ls => ls end)
    ++ wrap_paragraphs wrap rest
  end.

Definition slide_lines (wrap : string -> list string) (text : string)
  : list string :=
  wrap_paragraphs wrap (str_split "010" text).

(** One call of [draw.text((x, y), line, …)]. *)
Record drawn := mk_drawn { dr_x : Z; dr_y : Z; dr_text : string }.

(** The drawing loop (lines 93-101), from the offset [y] on. *)
Fixpoint draw_lines (measure : string -> bbox_t) (width height : Z) (y : Z)
         (lines : list string) : list drawn :=
  match lines with
  | [] => []
  | line :: rest =>
    let bbox := measure line in
    let tw := bbox_width bbox in
    let th := bbox_height bbox in
    let x := (width - tw) / 2 in
    mk_drawn x y line ::
      (let y := y + th + 12 in
       if y >? height - 60 then [] else draw_lines measure width height y rest)
  end.

(** What is drawn on the 720 x 1280 background. *)
Definition slide_layout (measure : string -> bbox_t)
           (wrap : string -> list string) (text : string) : list drawn :=
  draw_lines measure 720 1280 60 (slide_lines wrap text).

(** ** Further notions used in the statements *)

(** An upload request as [upload_video] builds it: private, not made for
    kids, for the configured channel. *)
Definition guarded_request (e : event) : Prop :=
  match e with
  | EvInsert body _ =>
    privacyStatus body = "private"
    /\ selfDeclaredMadeForKids body = false
    /\ channelId body = CHANNEL_ID
  | _ => True
  end.

(** The token file holds the credential [c]. *)
Definition holds_credential (m : gmap string node) (c : credentials) : Prop :=
  m !! TOKEN_FILE
  = Some (Regular (Pickled (cr_valid c) (cr_expired c) (cr_refresh_token c)))
  \/ m !! TOKEN_FILE
     = Some (Protected (Pickled (cr_valid c) (cr_expired c) (cr_refresh_token c))).

(** Seconds from the start of day 1 to a datetime. *)
Definition seconds_of (dt : Datetime.datetime) : Z :=
  Datetime.toordinal dt * 86400 + Datetime.hour dt * 3600
  + Datetime.minute dt * 60 + Datetime.second dt.

Definition is_http_error (e : exn) : bool :=
  match e with HttpError _ => true | _ => false end.

Definition is_remove (e : event) : bool :=
  match e with EvRemove _ => true | _ => false end.

Definition is_obj (v : json) : bool :=
  match v with JObj _ => true | _ => false end.


(** An environment without the Arial font. *)
Definition fontless : oracle :=
  {| utcnow := utcnow accepting;
     requests_get := requests_get accepting;
     gtts_save := gtts_save accepting;
     sd_pipe := sd_pipe accepting;
     broll_render := broll_render accepting;
     moviepy_write := moviepy_write accepting;
     image_open := image_open accepting;
     truetype := fun _ _ _ => Raise (OSError FileNotFoundError);
     textbbox := textbbox accepting;
     image_save := image_save accepting;
     creds_refresh := creds_refresh accepting;
     run_local_server := run_local_server accepting;
     build := build accepting;
     videos_insert := videos_insert accepting;
     py_repr := py_repr accepting |}.

(** A world whose token file holds the credential [c]. *)
Definition world_with_token (valid expired refresh_token : bool) : world :=
  mk_world (<[TOKEN_FILE := Regular (Pickled valid expired refresh_token)]> ∅) [].

(** A measure giving every character 24 pixels and every line 52. *)
Definition fixed_measure (text : string) : bbox_t :=
  (0, 0, 24 * Z.of_nat (String.length text), 52).

(** * Properties *)

Lemma all_from_spec (fuel : nat) (lo : Z) (P : Z -> bool) :
  all_from fuel lo P = true ->
  forall k, lo <= k < lo + Z.of_nat fuel -> P k = true.
Proof.
  revert lo. induction fuel as [|f IH]; intros lo H k Hk.
  - simpl in Hk. lia.
  - cbn [all_from] in H. destruct (P lo) eqn:E; [|discriminate].
    destruct (Z.eq_dec k lo) as [->|Hne]; [exact E|].
    apply (IH (lo + 1) H). lia.
Qed.

Module DatetimeFacts.
Import Datetime.

Lemma is_leap_shift (y q : Z) : is_leap (y + 400 * q) = is_leap y.
Proof.
  unfold is_leap.
  replace (y + 400 * q) with (y + (100 * q) * 4) at 1 by lia.
  replace (y + 400 * q) with (y + (4 * q) * 100) at 1 by lia.
  replace (y + 400 * q) with (y + q * 400) by lia.
  rewrite !Z.mod_add by lia. reflexivity.
Qed.

Lemma days_before_year_shift (y q : Z) :
  days_before_year (y + 400 * q) = days_before_year y + DI400Y * q.
Proof.
  unfold days_before_year, DI400Y. cbv zeta.
  replace ((y + 400 * q - 1) / 4) with ((y - 1) / 4 + 100 * q).
  2:{ replace (y + 400 * q - 1) with (y - 1 + (100 * q) * 4) by lia.
      rewrite Z.div_add by lia. reflexivity. }
  replace ((y + 400 * q - 1) / 100) with ((y - 1) / 100 + 4 * q).
  2:{ replace (y + 400 * q - 1) with (y - 1 + (4 * q) * 100) by lia.
      rewrite Z.div_add by lia. reflexivity. }
  replace ((y + 400 * q - 1) / 400) with ((y - 1) / 400 + q).
  2:{ replace (y + 400 * q - 1) with (y - 1 + q * 400) by lia.
      rewrite Z.div_add by lia. reflexivity. }
  lia.
Qed.

Lemma days_in_month_shift (y q m : Z) :
  days_in_month (y + 400 * q) m = days_in_month y m.
Proof. unfold days_in_month. rewrite is_leap_shift. reflexivity. Qed.

Lemma ymd2ord_shift (y q m d : Z) :
  ymd2ord (y + 400 * q) m d = ymd2ord y m d + DI400Y * q.
Proof.
  unfold ymd2ord, days_before_month.
  rewrite days_before_year_shift, is_leap_shift. lia.
Qed.

Lemma ord2ymd_shift (n q : Z) :
  ord2ymd (n + DI400Y * q) = shift_years q (ord2ymd n).
Proof.
  unfold ord2ymd.
  replace (n + DI400Y * q - 1) with (n - 1 + q * DI400Y) by lia.
  rewrite Z.div_add, Z.mod_add by (unfold DI400Y; lia).
  cbv zeta.
  set (r := (n - 1) mod DI400Y).
  set (n100 := r / DI100Y).
  set (n4 := (r mod DI100Y) / DI4Y).
  set (n1 := ((r mod DI100Y) mod DI4Y) / 365).
  set (k := ((r mod DI100Y) mod DI4Y) mod 365).
  destruct ((n1 =? 4) || (n100 =? 4)).
  - unfold shift_years. f_equal. f_equal. lia.
  - set (leap := (n1 =? 3) && (negb (n4 =? 24) || (n100 =? 3))).
    set (mo := Z.shiftr (k + 50) 5).
    destruct (k <? _); unfold shift_years; f_equal; f_equal; lia.
Qed.

Lemma days_before_year_decompose (a b c : Z) :
  0 <= a <= 3 -> 0 <= b <= 24 -> 0 <= c <= 3 ->
  days_before_year (a * 100 + b * 4 + c + 1) = DI100Y * a + DI4Y * b + 365 * c.
Proof.
  intros Ha Hb Hc. unfold days_before_year, DI100Y, DI4Y. cbv zeta.
  replace (a * 100 + b * 4 + c + 1 - 1) with (a * 100 + b * 4 + c) by lia.
  Z.div_mod_to_equations; lia.
Qed.

Lemma is_leap_decompose (a b c : Z) :
  0 <= a <= 3 -> 0 <= b <= 24 -> 0 <= c <= 3 ->
  is_leap (a * 100 + b * 4 + c + 1) = (c =? 3) && (negb (b =? 24) || (a =? 3)).
Proof.
  intros Ha Hb Hc. unfold is_leap.
  assert (H4 : (a * 100 + b * 4 + c + 1) mod 4 = (c + 1) mod 4).
  { replace (a * 100 + b * 4 + c + 1) with (c + 1 + (a * 25 + b) * 4) by lia.
    apply Z.mod_add. lia. }
  assert (H100 : (a * 100 + b * 4 + c + 1) mod 100 = (b * 4 + c + 1) mod 100).
  { replace (a * 100 + b * 4 + c + 1) with (b * 4 + c + 1 + a * 100) by lia.
    apply Z.mod_add. lia. }
  rewrite H4, H100.
  destruct (c =? 3) eqn:Ec, (b =? 24) eqn:Eb, (a =? 3) eqn:Ea; cbn [andb orb negb];
    repeat match goal with
    | |- context [?x mod ?y =? 0] => destruct (x mod y =? 0) eqn:?
    end; cbn [andb orb negb]; try reflexivity; exfalso;
    Z.div_mod_to_equations; lia.
Qed.

Lemma month_day_checked (leap : bool) : all_from 365 0 (month_day_ok leap) = true.
Proof. destruct leap; vm_compute; reflexivity. Qed.

Lemma month_day_spec (leap : bool) (k m d : Z) :
  0 <= k < 365 -> month_day k leap = (m, d) ->
  1 <= m <= 12
  /\ 1 <= d <= DAYS_IN_MONTH m + leap_day ((m =? 2) && leap)
  /\ DAYS_BEFORE_MONTH m + leap_day ((2 <? m) && leap) + d = k + 1.
Proof.
  intros Hk E.
  pose proof (all_from_spec 365 0 (month_day_ok leap) (month_day_checked leap) k
                ltac:(lia)) as H.
  unfold month_day_ok in H. rewrite E in H.
  repeat (apply andb_true_iff in H as [H ?]).
  lia.
Qed.

Lemma ord2ymd_unfold (n0 : Z) :
  ord2ymd n0 =
  let n := n0 - 1 in
  let n400 := n / DI400Y in
  let n := n mod DI400Y in
  let n100 := n / DI100Y in
  let n := n mod DI100Y in
  let n4 := n / DI4Y in
  let n := n mod DI4Y in
  let n1 := n / 365 in
  let n := n mod 365 in
  let year := n400 * 400 + 1 + (n100 * 100 + n4 * 4 + n1) in
  if (n1 =? 4) || (n100 =? 4) then (year - 1, 12, 31)
  else
    let '(m, d) := month_day n ((n1 =? 3) && (negb (n4 =? 24) || (n100 =? 3))) in
    (year, m, d).
Proof.
  unfold ord2ymd, month_day. cbv zeta.
  destruct (_ || _); [reflexivity|].
  destruct (_ <? _); reflexivity.
Qed.

Lemma days_in_month_eq (y m : Z) :
  days_in_month y m = DAYS_IN_MONTH m + leap_day ((m =? 2) && is_leap y).
Proof.
  unfold days_in_month, leap_day.
  destruct (m =? 2) eqn:E; cbn [andb]; [|lia].
  apply Z.eqb_eq in E. subst m. destruct (is_leap y); reflexivity.
Qed.

(** Within the first 400-year cycle, a day number maps to a date of the
    calendar that maps back to it. *)
Lemma ord2ymd_cycle (n y m d : Z) :
  1 <= n <= DI400Y -> ord2ymd n = (y, m, d) ->
  ymd2ord y m d = n /\ 1 <= m <= 12 /\ 1 <= d <= days_in_month y m.
Proof.
  intros Hn E. rewrite ord2ymd_unfold in E. cbv zeta in E.
  rewrite (Z.div_small (n - 1) DI400Y), (Z.mod_small (n - 1) DI400Y) in E by lia.
  unfold DI400Y, DI100Y, DI4Y in *.
  pose proof (Z.div_mod (n - 1) 36524 ltac:(lia)) as E1.
  pose proof (Z.mod_pos_bound (n - 1) 36524 ltac:(lia)) as B1.
  set (a := (n - 1) / 36524) in *. set (r1 := (n - 1) mod 36524) in *.
  pose proof (Z.div_mod r1 1461 ltac:(lia)) as E2.
  pose proof (Z.mod_pos_bound r1 1461 ltac:(lia)) as B2.
  set (b := r1 / 1461) in *. set (r2 := r1 mod 1461) in *.
  pose proof (Z.div_mod r2 365 ltac:(lia)) as E3.
  pose proof (Z.mod_pos_bound r2 365 ltac:(lia)) as B3.
  set (c := r2 / 365) in *. set (k := r2 mod 365) in *.
  assert (Ha : 0 <= a <= 4) by lia.
  assert (Hb : 0 <= b <= 24) by lia.
  assert (Hc : 0 <= c <= 4) by lia.
  rewrite days_in_month_eq.
  unfold ymd2ord, days_before_month. fold (leap_day ((2 <? m) && is_leap y)).
  destruct (c =? 4) eqn:Ec4; cbn [orb] in E.
  - (* last day of a leap year *)
    apply Z.eqb_eq in Ec4. injection E as <- <- <-.
    assert (Hb' : 0 <= b <= 23) by lia.
    replace (0 * 400 + 1 + (a * 100 + b * 4 + c) - 1)
      with (a * 100 + b * 4 + 3 + 1) by lia.
    rewrite days_before_year_decompose, is_leap_decompose by lia.
    replace (b =? 24) with false by (symmetry; apply Z.eqb_neq; lia).
    cbn. unfold DI100Y, DI4Y. lia.
  - apply Z.eqb_neq in Ec4. destruct (a =? 4) eqn:Ea4.
    + apply Z.eqb_eq in Ea4. injection E as <- <- <-.
      assert (b = 0 /\ c = 0 /\ n = 146097) as (-> & -> & ->) by lia.
      subst a. vm_compute. repeat split; intro; discriminate.
    + apply Z.eqb_neq in Ea4.
      destruct (month_day k _) as [m' d'] eqn:Emd. injection E as <- <- <-.
      apply month_day_spec in Emd; [|lia].
      replace (0 * 400 + 1 + (a * 100 + b * 4 + c)) with (a * 100 + b * 4 + c + 1) by lia.
      rewrite days_before_year_decompose, is_leap_decompose by lia.
      unfold DI100Y, DI4Y. lia.
Qed.

Lemma days_before_year_succ (y : Z) :
  days_before_year (y + 1) = days_before_year y + 365 + leap_day (is_leap y).
Proof.
  unfold days_before_year, is_leap, leap_day. cbv zeta.
  replace (y + 1 - 1) with y by lia.
  destruct (y mod 4 =? 0) eqn:E4, (y mod 100 =? 0) eqn:E100,
           (y mod 400 =? 0) eqn:E400; cbn [andb orb negb];
    rewrite ?Z.eqb_eq, ?Z.eqb_neq in *;
    Z.div_mod_to_equations; lia.
Qed.

Lemma days_before_year_mono (y y' : Z) :
  y <= y' -> days_before_year y <= days_before_year y'.
Proof.
  intros H. unfold days_before_year. cbv zeta.
  Z.div_mod_to_equations. lia.
Qed.

Lemma month_cases (m : Z) :
  1 <= m <= 12 ->
  m = 1 \/ m = 2 \/ m = 3 \/ m = 4 \/ m = 5 \/ m = 6 \/ m = 7 \/ m = 8
  \/ m = 9 \/ m = 10 \/ m = 11 \/ m = 12.
Proof. lia. Qed.

(** The day of the year of a date lies within its year. *)
Lemma day_of_year_bounds (leap : bool) (m d : Z) :
  1 <= m <= 12 ->
  1 <= d <= DAYS_IN_MONTH m + leap_day ((m =? 2) && leap) ->
  1 <= DAYS_BEFORE_MONTH m + leap_day ((2 <? m) && leap) + d
    <= 365 + leap_day leap.
Proof.
  intros Hm. apply month_cases in Hm.
  destruct leap; repeat (destruct Hm as [-> | Hm]); try subst m; cbn; lia.
Qed.


Lemma ymd2ord_bounds (y m d : Z) :
  1 <= m <= 12 -> 1 <= d <= days_in_month y m ->
  days_before_year y < ymd2ord y m d <= days_before_year (y + 1).
Proof.
  intros Hm Hd. rewrite days_in_month_eq in Hd.
  pose proof (day_of_year_bounds (is_leap y) m d Hm Hd) as H.
  rewrite days_before_year_succ.
  unfold ymd2ord, days_before_month. fold (leap_day ((2 <? m) && is_leap y)). lia.
Qed.


(** [_ord2ymd] returns a date of the calendar whose day number is the
    argument, for every integer. *)
Lemma ord2ymd_spec (n y m d : Z) :
  ord2ymd n = (y, m, d) ->
  ymd2ord y m d = n /\ 1 <= m <= 12 /\ 1 <= d <= days_in_month y m.
Proof.
  intros E.
  pose (q := (n - 1) / DI400Y).
  pose (n0 := (n - 1) mod DI400Y + 1).
  assert (Hn : n = n0 + DI400Y * q).
  { unfold n0, q. pose proof (Z.div_mod (n - 1) DI400Y). unfold DI400Y in *. lia. }
  assert (Hr : 1 <= n0 <= DI400Y).
  { unfold n0. pose proof (Z.mod_pos_bound (n - 1) DI400Y).
    unfold DI400Y in *. lia. }
  rewrite Hn, ord2ymd_shift in E.
  destruct (ord2ymd n0) as [[y0 m0] d0] eqn:E0. cbn [shift_years] in E.
  injection E as <- <- <-.
  destruct (ord2ymd_cycle n0 y0 m0 d0 Hr E0) as (H1 & H2 & H3).
  rewrite ymd2ord_shift, days_in_month_shift. repeat split; lia.
Qed.

(** [_ymd2ord] undoes [_ord2ymd]. *)
Lemma ymd2ord_ord2ymd (n : Z) :
  forall y m d, ord2ymd n = (y, m, d) -> ymd2ord y m d = n.
Proof. intros y m d E. apply (ord2ymd_spec n y m d E). Qed.


Lemma days_before_year_nonneg (y : Z) : 1 <= y -> 0 <= days_before_year y.
Proof.
  intros Hy. unfold days_before_year. cbv zeta.
  pose proof (Z.div_pos (y - 1) 4).
  pose proof (Z.div_pos (y - 1) 400).
  assert ((y - 1) / 100 <= (y - 1) / 4).
  { apply Z.div_le_compat_l; lia. }
  lia.
Qed.

Lemma toordinal_pos (dt : datetime) : valid_datetime dt -> 1 <= toordinal dt.
Proof.
  intros [[Hy [Hm Hd]] _]. unfold toordinal, ymd2ord, days_before_month.
  pose proof (days_before_year_nonneg (year dt)) as H. unfold MINYEAR in Hy.
  assert (0 <= DAYS_BEFORE_MONTH (month dt)).
  { unfold DAYS_BEFORE_MONTH. destruct (month dt) as [|p|p]; try lia.
    do 4 (destruct p as [p|p|]; try lia). }
  destruct (_ && _); lia.
Qed.

(** A [timedelta] whose arguments need no carry is stored as given. *)
Lemma timedelta_new_normal (d s us mi h : Z) :
  0 <= s + mi * 60 + h * 3600 < 86400 -> 0 <= us < 1000000 ->
  Z.abs d <= 999999999 ->
  timedelta_new d s us mi h = Ok (mk_timedelta d (s + mi * 60 + h * 3600) us).
Proof.
  intros Hs Hus Hd. unfold timedelta_new. cbv zeta.
  set (t := s + mi * 60 + h * 3600) in *.
  rewrite (Z.div_small t 86400), (Z.mod_small t 86400) by lia.
  rewrite (Z.div_small us 1000000), (Z.mod_small us 1000000) by lia.
  rewrite !Z.add_0_r.
  rewrite (Z.div_small t 86400), (Z.mod_small t 86400) by lia.
  rewrite Z.add_0_r.
  destruct (Z.abs d >? 999999999) eqn:E; [lia|reflexivity].
Qed.

End DatetimeFacts.

(** ** Scheduling *)

Section Scheduling.
Import Datetime DatetimeFacts.

Variable now : datetime.
Hypothesis now_valid : valid_datetime now.

Lemma start_of_ordinal : toordinal (start_of now) = toordinal now.
Proof. reflexivity. Qed.

(** The sum computed by [start + timedelta(days=…, hours=…)], before the
    day number is turned back into a calendar date. *)
Lemma publish_datetime_eq (idx : nat) :
  toordinal now + Z.of_nat idx / 5 <= MAXORDINAL ->
  publish_datetime (start_of now) idx =
  let '(y, m, d) := ord2ymd (toordinal now + Z.of_nat idx / 5) in
  Ok (mk_datetime y m d (9 + 2 * (Z.of_nat idx mod 5)) 0 0 0).
Proof.
  intros Hmax. unfold MAXORDINAL in Hmax.
  pose proof (toordinal_pos now now_valid) as Hpos.
  pose proof (Z.mod_pos_bound (Z.of_nat idx) 5 ltac:(lia)) as Hslot.
  assert (Hoff : 0 <= Z.of_nat idx / 5) by (apply Z.div_pos; lia).
  set (off := Z.of_nat idx / 5) in *.
  set (slot := Z.of_nat idx mod 5) in *.
  unfold publish_datetime. fold off slot. cbv zeta.
  rewrite timedelta_new_normal by lia.
  unfold datetime_add.
  rewrite start_of_ordinal.
  cbn [start_of replace_time hour minute second microsecond].
  rewrite timedelta_new_normal by lia.
  unfold timedelta_add.
  cbn [td_days td_seconds td_microseconds].
  rewrite timedelta_new_normal by lia.
  cbn [td_days td_seconds td_microseconds].
  replace (0 + 0 * 60 + 9 * 3600 + (0 + 0 * 60 + slot * 2 * 3600) + 0 * 60 + 0 * 3600)
    with ((9 + 2 * slot) * 3600) by lia.
  rewrite Z.div_mul, Z.mod_mul by lia.
  change (0 / 60) with 0. change (0 mod 60) with 0.
  replace (0 + 0) with 0 by lia.
  destruct (0 <? toordinal now + off) eqn:E1; [|lia].
  destruct (toordinal now + off <=? MAXORDINAL) eqn:E2;
    [|unfold MAXORDINAL in E2; lia].
  cbn [andb].
  destruct (ord2ymd (toordinal now + off)) as [[y m] d]. reflexivity.
Qed.

End Scheduling.

Example publish_time_example :
  publish_time (start_of (Datetime.mk_datetime 2024 2 28 14 23 45 123456)) 7
  = Ok "2024-02-29T13:00:00Z".
Proof. vm_compute. reflexivity. Qed.

(** The ten slots of a run started on 31 December 2023. *)
Example publish_time_ten_items :
  map (publish_time (start_of (Datetime.mk_datetime 2023 12 31 23 59 59 999999)))
      (seq 0 10)
  = [Ok "2023-12-31T09:00:00Z"; Ok "2023-12-31T11:00:00Z";
     Ok "2023-12-31T13:00:00Z"; Ok "2023-12-31T15:00:00Z";
     Ok "2023-12-31T17:00:00Z";
     Ok "2024-01-01T09:00:00Z"; Ok "2024-01-01T11:00:00Z";
     Ok "2024-01-01T13:00:00Z"; Ok "2024-01-01T15:00:00Z";
     Ok "2024-01-01T17:00:00Z"].
Proof. vm_compute. reflexivity. Qed.



(** ** Strings *)

Lemma append_empty_r (s : string) : s +:+ "" = s.
Proof.
  induction s as [|c s IH]; [reflexivity|].
  change (String c (s +:+ "") = String c s). rewrite IH. reflexivity.
Qed.

Lemma prefix_empty (s : string) : String.prefix "" s = true.
Proof. destruct s; reflexivity. Qed.

(** Replacing the one-character string [c] by nothing removes every [c]. *)
Lemma str_replace_char_remove (c : ascii) (s : string) :
  str_replace (String c "") "" s = str_remove_char c s.
Proof.
  unfold str_replace. rewrite append_empty_r.
  induction s as [|a s IH]; [reflexivity|].
  cbn [str_replace_go str_remove_char String.prefix String.length Nat.sub].
  destruct (Ascii.ascii_dec c a) as [->|Hne].
  - rewrite Ascii.eqb_refl, prefix_empty. exact IH.
  - destruct (Ascii.eqb a c) eqn:E.
    + apply Ascii.eqb_eq in E. congruence.
    + rewrite IH. reflexivity.
Qed.

Lemma str_remove_char_absent (c : ascii) (s : string) :
  str_mem c (str_remove_char c s) = false.
Proof.
  induction s as [|a s IH]; [reflexivity|]. cbn.
  destruct (Ascii.eqb a c) eqn:E; [exact IH|]. cbn. rewrite E. exact IH.
Qed.

(** ** Hashtags *)

Lemma generate_hashtags_of_author (entry : pydict) (author : string) :
  entry !! "author" = Some (JStr author) ->
  generate_hashtags entry = Ok (expected_hashtags author).
Proof.
  intros H. unfold generate_hashtags, dict_getitem. rewrite H.
  rewrite (str_replace_char_remove " " author). reflexivity.
Qed.

(** C2. For an entry whose author is the string [author],
    [generate_hashtags] returns exactly the six tags #Inspiration,
    #Motivation, #DailyQuote, #Viral, #Shorts and "#" followed by [author]
    without its space characters, in that order; the last tag holds no
    space; any other entry with the same author string gives the same list;
    and the author "Maya Angelou" gives #MayaAngelou. *)
Theorem generate_hashtags_deterministic (entry : pydict) (author : string) :
  entry !! "author" = Some (JStr author) ->
  generate_hashtags entry
  = Ok ["#Inspiration"; "#Motivation"; "#DailyQuote"; "#Viral"; "#Shorts";
        "#" +:+ str_remove_char " " author]
  /\ str_mem " " (str_remove_char " " author) = false
  /\ (forall entry' : pydict,
        entry' !! "author" = Some (JStr author) ->
        generate_hashtags entry' = generate_hashtags entry)
  /\ (author = "Maya Angelou" ->
      generate_hashtags entry
      = Ok ["#Inspiration"; "#Motivation"; "#DailyQuote"; "#Viral"; "#Shorts";
            "#MayaAngelou"]).
Proof.
  intros H. pose proof (generate_hashtags_of_author entry author H) as E.
  split; [exact E|].
  split; [apply str_remove_char_absent|].
  split.
  - intros entry' H'. rewrite E. apply generate_hashtags_of_author. exact H'.
  - intros ->. rewrite E. reflexivity.
Qed.

Lemma generate_hashtags_deterministic_witness :
  generate_hashtags
    (<["author" := JStr "Maya Angelou"]> (<["quote" := JStr "Stay curious."]> ∅))
  = Ok ["#Inspiration"; "#Motivation"; "#DailyQuote"; "#Viral"; "#Shorts";
        "#MayaAngelou"].
Proof.
  apply (generate_hashtags_deterministic
           (<["author" := JStr "Maya Angelou"]>
              (<["quote" := JStr "Stay curious."]> ∅))
           "Maya Angelou"); reflexivity.
Defined.

(** ** Quotes *)

Lemma map_result_quote_entry (ms : list pydict) :
  map_result quote_entry (map JObj ms) = Ok (map entry_of ms).
Proof.
  induction ms as [|m ms IH]; [reflexivity|].
  cbn [map map_result]. rewrite IH. reflexivity.
Qed.

Lemma slice_to_map {A B} (f : A -> B) (stop : Z) (l : list A) :
  slice_to stop (map f l) = map f (slice_to stop l).
Proof.
  unfold slice_to. rewrite length_map.
  destruct (stop <? 0); apply firstn_map.
Qed.

Lemma slice_to_all {A} (stop : Z) (l : list A) :
  Z.of_nat (length l) <= stop -> slice_to stop l = l.
Proof.
  intros H. unfold slice_to.
  destruct (stop <? 0) eqn:E; [lia|].
  apply firstn_all2. lia.
Qed.

Lemma quotes_of_objects (ms : list pydict) (max_entries : Z) :
  quotes_of_json (JArr (map JObj ms)) max_entries
  = Ok (map entry_of (slice_to max_entries ms)).
Proof.
  unfold quotes_of_json, py_slice_items.
  rewrite slice_to_map. apply map_result_quote_entry.
Qed.

(** A request that is answered with a passing status and a decodable body
    returns what the comprehension makes of the body. *)
Lemma fetch_quotes_answered (O : oracle) (w : world) (status_code : Z)
      (data : json) (max_entries : Z) :
  requests_get O (world_at_get w) QUOTES_API_URL = Ok (status_code, Ok data) ->
  status_ok status_code = true ->
  fetch_quotes O max_entries w
  = (quotes_of_json data max_entries, world_at_get w).
Proof.
  intros Hget Hst. unfold fetch_quotes, bind, emit, external_val, lift.
  fold (world_at_get w). rewrite Hget.
  unfold status_ok in Hst. apply negb_true_iff in Hst. rewrite Hst.
  reflexivity.
Qed.

Lemma entry_of_quote (m : pydict) :
  entry_of m !! "quote" = Some (default (JStr "") (m !! "q")).
Proof. reflexivity. Qed.

Lemma entry_of_author (m : pydict) :
  entry_of m !! "author" = Some (default (JStr "") (m !! "a")).
Proof. reflexivity. Qed.

(** C3. When the endpoint answers with an array of more than ten objects,
    [fetch_quotes(10)] returns exactly ten entries, built from the first
    ten objects in their order; the entry at position [i] is
    [{quote: q, author: a}] for the [q] and [a] values of the [i]-th
    object. *)
Theorem fetch_quotes_truncates (O : oracle) (w : world) (status_code : Z)
        (ms : list pydict) :
  requests_get O (world_at_get w) QUOTES_API_URL
  = Ok (status_code, Ok (JArr (map JObj ms))) ->
  status_ok status_code = true ->
  (10 < length ms)%nat ->
  exists es,
    result_of (fetch_quotes O 10) w = Ok es
    /\ es = map entry_of (take 10 ms)
    /\ length es = 10%nat
    /\ (forall (i : nat) (m : pydict) (q a : json),
          (i < 10)%nat -> ms !! i = Some m ->
          m !! "q" = Some q -> m !! "a" = Some a ->
          es !! i = Some (<["author" := a]> (<["quote" := q]> ∅))).
Proof.
  intros Hget Hst Hlen.
  exists (map entry_of (take 10 ms)).
  split.
  - unfold result_of. rewrite (fetch_quotes_answered O w status_code _ 10 Hget Hst).
    cbn [fst]. rewrite quotes_of_objects. reflexivity.
  - split; [reflexivity|]. split.
    + rewrite length_map, length_take. lia.
    + intros i m q a Hi Hm Hq Ha.
      rewrite list_lookup_fmap, lookup_take_lt by exact Hi.
      rewrite Hm. cbn. unfold entry_of. rewrite Hq, Ha. reflexivity.
Qed.

Lemma fetch_quotes_truncates_witness :
  exists es,
    result_of (fetch_quotes
                 (scripted some_day (Ok (200, Ok (JArr (map JObj eleven_objects))))
                           (fun _ => uploaded)) 10) empty_world = Ok es
    /\ es = map entry_of (take 10 eleven_objects).
Proof.
  destruct (fetch_quotes_truncates
              (scripted some_day (Ok (200, Ok (JArr (map JObj eleven_objects))))
                        (fun _ => uploaded))
              empty_world 200 eleven_objects) as [es [H1 [H2 _]]].
  - reflexivity.
  - reflexivity.
  - cbn. lia.
  - exists es. split; assumption.
Defined.

(** A [null] quote in the response stays [null] in the entry: the default
    of [get] only stands in for a missing key. *)
Lemma fetch_quotes_null_field :
  result_of (fetch_quotes
               (scripted some_day (Ok (200, Ok (JArr [null_quote])))
                         (fun _ => uploaded)) 10) empty_world
  = Ok [<["author" := JStr ""]> (<["quote" := JNull]> ∅)]
  /\ ~ fields_are_strings (<["author" := JStr ""]> (<["quote" := JNull]> ∅)).
Proof.
  split; [reflexivity|].
  intros [[q Hq] _]. vm_compute in Hq. discriminate.
Qed.

(** C10 (amended). When the endpoint answers with an array of objects,
    [fetch_quotes] returns one entry per object of [data[:max_entries]],
    each with both fields: the field is the value under "q" (or "a") when
    the object has that key and the empty string when it lacks it, so the
    fields are strings whenever the values present in the object are; and
    an array of at most [max_entries] objects yields all of them. *)
Theorem fetch_quotes_entries (O : oracle) (w : world) (status_code : Z)
        (ms : list pydict) (max_entries : Z) :
  requests_get O (world_at_get w) QUOTES_API_URL
  = Ok (status_code, Ok (JArr (map JObj ms))) ->
  status_ok status_code = true ->
  result_of (fetch_quotes O max_entries) w
  = Ok (map entry_of (slice_to max_entries ms))
  /\ (forall m : pydict,
        entry_of m !! "quote" = Some (default (JStr "") (m !! "q"))
        /\ entry_of m !! "author" = Some (default (JStr "") (m !! "a")))
  /\ (forall m : pydict,
        (m !! "q" = None -> entry_of m !! "quote" = Some (JStr ""))
        /\ (m !! "a" = None -> entry_of m !! "author" = Some (JStr "")))
  /\ (forall m : pydict,
        (forall v, m !! "q" = Some v -> is_str v = true) ->
        (forall v, m !! "a" = Some v -> is_str v = true) ->
        fields_are_strings (entry_of m))
  /\ (Z.of_nat (length ms) <= max_entries ->
      result_of (fetch_quotes O max_entries) w = Ok (map entry_of ms)).
Proof.
  intros Hget Hst.
  assert (E : result_of (fetch_quotes O max_entries) w
              = Ok (map entry_of (slice_to max_entries ms))).
  { unfold result_of.
    rewrite (fetch_quotes_answered O w status_code _ max_entries Hget Hst).
    cbn [fst]. apply quotes_of_objects. }
  split; [exact E|].
  split; [intros m; split; [apply entry_of_quote|apply entry_of_author]|].
  split.
  { intros m. split; intros Hm.
    - rewrite entry_of_quote, Hm. reflexivity.
    - rewrite entry_of_author, Hm. reflexivity. }
  split.
  { intros m Hq Ha. split.
    - rewrite entry_of_quote. destruct (m !! "q") as [v|] eqn:Ev; cbn.
      + specialize (Hq v eq_refl). destruct v; try discriminate. eauto.
      + eauto.
    - rewrite entry_of_author. destruct (m !! "a") as [v|] eqn:Ev; cbn.
      + specialize (Ha v eq_refl). destruct v; try discriminate. eauto.
      + eauto. }
  intros Hlen. rewrite E, slice_to_all by exact Hlen. reflexivity.
Qed.

Lemma fetch_quotes_entries_witness :
  result_of (fetch_quotes
               (scripted some_day (Ok (200, Ok two_quotes)) (fun _ => uploaded))
               10) empty_world
  = Ok [<["author" := JStr "Maya Angelou"]> (<["quote" := JStr "Stay curious."]> ∅);
        <["author" := JStr "Lao Tzu"]> (<["quote" := JStr "Begin anyway."]> ∅)].
Proof.
  destruct (fetch_quotes_entries
              (scripted some_day (Ok (200, Ok two_quotes)) (fun _ => uploaded))
              empty_world 200
              [<["a" := JStr "Maya Angelou"]> (<["q" := JStr "Stay curious."]> ∅);
               <["a" := JStr "Lao Tzu"]> (<["q" := JStr "Begin anyway."]> ∅)]
              10) as (_ & _ & _ & _ & H).
  - reflexivity.
  - reflexivity.
  - apply H. cbn. lia.
Defined.

(** ** How computations extend the log *)

Section Logs.
Variable P : list event -> Prop.
Hypothesis P_closed : closed P.

Lemma logs_ret {A} (a : A) : logs P (ret a).
Proof. intros w. exists []. split; [symmetry; apply app_nil_r|apply P_closed]. Qed.

Lemma logs_raise {A} (e : exn) : logs P (@raise A e).
Proof. intros w. exists []. split; [symmetry; apply app_nil_r|apply P_closed]. Qed.

Lemma logs_lift {A} (r : result A) : logs P (lift r).
Proof. intros w. exists []. split; [symmetry; apply app_nil_r|apply P_closed]. Qed.

Lemma logs_get_world : logs P get_world.
Proof. intros w. exists []. split; [symmetry; apply app_nil_r|apply P_closed]. Qed.

Lemma logs_external (ans : world -> option exn) : logs P (external ans).
Proof.
  intros w. exists []. split; [|apply P_closed].
  unfold world_after, external. destruct (ans w); symmetry; apply app_nil_r.
Qed.

Lemma logs_external_val {A} (ans : world -> result A) : logs P (external_val ans).
Proof. intros w. exists []. split; [symmetry; apply app_nil_r|apply P_closed]. Qed.

Lemma logs_write_file (p : string) (c : content) : logs P (write_file p c).
Proof.
  intros w. exists []. split; [|apply P_closed].
  unfold world_after, write_file.
  destruct (has_nul p); [symmetry; apply app_nil_r|].
  destruct (fs w !! p) as [[| |]|]; symmetry; apply app_nil_r.
Qed.

Lemma logs_path_exists (p : string) : logs P (path_exists p).
Proof. intros w. exists []. split; [symmetry; apply app_nil_r|apply P_closed]. Qed.

Lemma logs_emit (e : event) : P [e] -> logs P (emit e).
Proof. intros H w. exists [e]. split; [reflexivity|exact H]. Qed.

Lemma logs_bind {A B} (m : M A) (k : A -> M B) :
  logs P m -> (forall a, logs P (k a)) -> logs P (bind m k).
Proof.
  intros Hm Hk w. destruct (Hm w) as [e1 [E1 P1]].
  unfold world_after, bind in *.
  destruct (m w) as [[a|e] w1]; cbn [snd] in *.
  - destruct (Hk a w1) as [e2 [E2 P2]]. exists (e1 ++ e2).
    split; [|apply P_closed; assumption].
    unfold world_after in E2. rewrite E2, E1. symmetry. apply app_assoc.
  - exists e1. split; assumption.
Qed.

Lemma logs_try_except {A} (body : M A) (handler : exn -> option (M A)) :
  logs P body -> (forall e h, handler e = Some h -> logs P h) ->
  logs P (try_except body handler).
Proof.
  intros Hm Hh w. destruct (Hm w) as [e1 [E1 P1]].
  unfold world_after, try_except in *.
  destruct (body w) as [[a|e] w1]; cbn [snd] in *.
  - exists e1. split; assumption.
  - destruct (handler e) as [h|] eqn:Eh.
    + destruct (Hh e h Eh w1) as [e2 [E2 P2]]. exists (e1 ++ e2).
      split; [|apply P_closed; assumption].
      unfold world_after in E2. rewrite E2, E1. symmetry. apply app_assoc.
    + exists e1. split; assumption.
Qed.

End Logs.

Lemma closed_no_events : closed no_events.
Proof.
  split; [reflexivity|]. unfold no_events. intros a b -> ->. reflexivity.
Qed.

Lemma closed_any_events : closed any_events.
Proof. split; [exact I|]. intros; exact I. Qed.

Lemma builds_app (a b : list event) : builds (a ++ b) = (builds a + builds b)%nat.
Proof. unfold builds. rewrite filter_app, length_app. reflexivity. Qed.

Lemma closed_no_build : closed no_build.
Proof.
  split; [reflexivity|]. unfold no_build. intros a b Ha Hb.
  rewrite builds_app, Ha, Hb. reflexivity.
Qed.

(** A computation that logs nothing leaves the log as it was. *)
Lemma logs_nothing {A} (m : M A) (w : world) :
  logs no_events m -> log (world_after m w) = log w.
Proof.
  intros H. destruct (H w) as [evs [E ->]]. rewrite E. apply app_nil_r.
Qed.

Lemma emit_then {A} (e : event) (k : M A) (w : world) :
  (emit e ;;; k) w = k (with_event w e).
Proof. reflexivity. Qed.

Ltac solve_closed :=
  first [ assumption | apply closed_no_build | apply closed_any_events
        | apply closed_no_events ].

(** Breaks a computation into its steps; what is left are the events that
    must satisfy the property. *)
Ltac logs_steps :=
  repeat first
    [ apply logs_ret; solve_closed
    | apply logs_raise; solve_closed
    | apply logs_lift; solve_closed
    | apply logs_get_world; solve_closed
    | apply logs_external; solve_closed
    | apply logs_external_val; solve_closed
    | apply logs_write_file; solve_closed
    | apply logs_path_exists; solve_closed
    | apply logs_emit; first [ exact I | reflexivity ]
    | apply logs_bind; [ solve_closed | | intros ? ]
    | match goal with
      | |- logs _ (match ?x with _ => _ end) => destruct x
      end ].

Section StageLogs.
Variable O : oracle.
Variable P : list event -> Prop.
Hypothesis P_closed : closed P.
(** Every event but a client construction is allowed. *)
Hypothesis P_event : forall e, is_build e = false -> P [e].

Lemma logs_guarded {A} (body : M A) (a : A) :
  logs P body ->
  logs P (try_except body (fun e => if is_os_error e then Some (ret a) else None)).
Proof.
  intros H. apply logs_try_except; [solve_closed|exact H|].
  intros e h. destruct (is_os_error e); [|discriminate].
  intros [= <-]. logs_steps.
Qed.

Lemma logs_fetch_quotes (max_entries : Z) : logs P (fetch_quotes O max_entries).
Proof.
  unfold fetch_quotes. apply logs_bind; [solve_closed| |intros _].
  - apply logs_emit. apply P_event. reflexivity.
  - logs_steps.
Qed.

Lemma logs_synthesize_voice (text out_path : string) :
  logs P (synthesize_voice O text out_path).
Proof.
  unfold synthesize_voice. apply logs_bind; [solve_closed| |intros _].
  - apply logs_emit. apply P_event. reflexivity.
  - logs_steps.
Qed.

Lemma logs_generate_broll_slide (entry : pydict) (out_path : string) :
  logs P (generate_broll_slide O entry out_path).
Proof.
  unfold generate_broll_slide. apply logs_bind; [solve_closed| |intros _].
  - apply logs_emit. apply P_event. reflexivity.
  - logs_steps.
Qed.

Lemma logs_assemble_video (voice_fp slide_fp out_fp : string) :
  logs P (assemble_video O voice_fp slide_fp out_fp).
Proof.
  unfold assemble_video. apply logs_bind; [solve_closed| |intros _].
  - apply logs_emit. apply P_event. reflexivity.
  - logs_steps.
Qed.

Lemma logs_create_thumbnail (title template out_path : string) :
  logs P (create_thumbnail O title template out_path).
Proof.
  unfold create_thumbnail. apply logs_bind; [solve_closed| |intros [iw ih]].
  - logs_steps.
  - apply logs_bind; [solve_closed| |intros f].
    + apply logs_guarded. logs_steps.
    + destruct (thumbnail_xy _ _ _) as [x y].
      apply logs_bind; [solve_closed| |intros _].
      * apply logs_emit. apply P_event. reflexivity.
      * apply logs_bind; [solve_closed| |intros _].
        -- apply logs_emit. apply P_event. reflexivity.
        -- logs_steps.
Qed.

Lemma logs_prepare_item (start : Datetime.datetime) (idx : nat) (entry : pydict) :
  logs P (prepare_item O start idx entry).
Proof.
  unfold prepare_item.
  repeat first
    [ apply logs_synthesize_voice | apply logs_generate_broll_slide
    | apply logs_assemble_video | apply logs_create_thumbnail
    | apply logs_lift; solve_closed | apply logs_ret; solve_closed
    | apply logs_bind; [ solve_closed | | intros ? ] ].
Qed.

Lemma logs_os_remove (p : string) : logs P (os_remove p).
Proof.
  unfold os_remove. apply logs_bind; [solve_closed| |intros _].
  - apply logs_emit. apply P_event. reflexivity.
  - intros w. exists []. split; [|apply P_closed].
    unfold world_after. destruct (has_nul p); [symmetry; apply app_nil_r|].
    destruct (fs w !! p) as [[| |]|]; symmetry; apply app_nil_r.
Qed.

Lemma logs_cleanup (paths : list string) : logs P (cleanup paths).
Proof.
  induction paths as [|p paths IH]; cbn [cleanup]; [logs_steps|].
  apply logs_bind; [solve_closed| |intros _; exact IH].
  apply logs_guarded. apply logs_os_remove.
Qed.

Lemma logs_pickle_load (p : string) : logs P (pickle_load p).
Proof.
  intros w. exists []. split; [|apply P_closed].
  unfold world_after, pickle_load.
  destruct (fs w !! p) as [[[|v e r]|[|v e r]|]|]; symmetry; apply app_nil_r.
Qed.

Lemma logs_media_file_upload (p : string) : logs P (media_file_upload p).
Proof.
  intros w. exists []. split; [|apply P_closed].
  unfold world_after, media_file_upload.
  destruct (fs w !! p) as [[| |]|]; symmetry; apply app_nil_r.
Qed.

Lemma logs_insert_and_report (body : upload_body) (video_fp : string) :
  logs P (try_except (insert_and_report O body video_fp) on_http_error).
Proof.
  apply logs_try_except; [solve_closed| |].
  - unfold insert_and_report, print.
    apply logs_bind; [solve_closed| |intros _].
    + apply logs_emit. apply P_event. reflexivity.
    + apply logs_bind; [solve_closed|logs_steps|intros res].
      apply logs_bind; [solve_closed|logs_steps|intros id].
      apply logs_emit. apply P_event. reflexivity.
  - intros e h. destruct e; try discriminate. cbn [on_http_error].
    intros [= <-]. destruct (status =? 403); [|logs_steps].
    apply logs_emit. apply P_event. reflexivity.
Qed.

End StageLogs.

(** ** Upload *)

Section Upload.
Variable O : oracle.

(** The two ways an [HttpError] raised by the API call ends
    [upload_video], once the client is built and the media file is open. *)
Lemma upload_video_http_error (video_fp title desc : string)
      (tags : list string) (publish_at : string) (w w1 : world)
      (c : credentials) (status : Z) :
  get_authenticated_service O w = (Ok c, w1) ->
  media_file_upload video_fp w1 = (Ok tt, w1) ->
  videos_insert O (with_event w1 (EvInsert (body_of title desc tags publish_at)
                                           video_fp))
                (body_of title desc tags publish_at) video_fp
  = Raise (HttpError status) ->
  upload_video O video_fp title desc tags publish_at w
  = if status =? 403
    then (Ok tt,
          with_event (with_event w1 (EvInsert (body_of title desc tags publish_at)
                                              video_fp))
                     (EvPrint REMEDIATION))
    else (Raise (HttpError status),
          with_event w1 (EvInsert (body_of title desc tags publish_at) video_fp)).
Proof.
  intros Hauth Hmedia Hins. unfold upload_video.
  unfold bind at 1. rewrite Hauth.
  unfold bind at 1. rewrite Hmedia.
  fold (body_of title desc tags publish_at).
  unfold try_except, insert_and_report. rewrite emit_then.
  unfold bind at 1. unfold external_val at 1. rewrite Hins.
  cbn [on_http_error]. destruct (status =? 403); reflexivity.
Qed.

End Upload.

(** C4. When the API call of [upload_video] raises an [HttpError]: with
    status 403 the remediation message is printed and [upload_video] returns
    normally; with any other status the same error is raised again and
    nothing is printed. *)
Theorem upload_video_http_errors (O : oracle) (video_fp title desc : string)
        (tags : list string) (publish_at : string) (w w1 : world)
        (c : credentials) (status : Z) :
  get_authenticated_service O w = (Ok c, w1) ->
  media_file_upload video_fp w1 = (Ok tt, w1) ->
  videos_insert O (with_event w1 (EvInsert (body_of title desc tags publish_at)
                                           video_fp))
                (body_of title desc tags publish_at) video_fp
  = Raise (HttpError status) ->
  (status = 403 ->
   result_of (upload_video O video_fp title desc tags publish_at) w = Ok tt
   /\ log (world_after (upload_video O video_fp title desc tags publish_at) w)
      = log w1 ++ [EvInsert (body_of title desc tags publish_at) video_fp;
                   EvPrint REMEDIATION])
  /\ (status <> 403 ->
      result_of (upload_video O video_fp title desc tags publish_at) w
      = Raise (HttpError status)
      /\ log (world_after (upload_video O video_fp title desc tags publish_at) w)
         = log w1 ++ [EvInsert (body_of title desc tags publish_at) video_fp]).
Proof.
  intros Hauth Hmedia Hins.
  pose proof (upload_video_http_error O video_fp title desc tags publish_at
                w w1 c status Hauth Hmedia Hins) as E.
  unfold result_of, world_after. rewrite E. split.
  - intros ->. cbn. split; [reflexivity|]. rewrite <- app_assoc. reflexivity.
  - intros Hne. apply Z.eqb_neq in Hne. rewrite Hne. cbn. split; reflexivity.
Qed.

Lemma upload_video_http_errors_witness :
  result_of (upload_video (scripted some_day (Ok (200, Ok two_quotes))
                                    (fun _ => Raise (HttpError 403)))
                          "temp/video_0.mp4" "Inspiration: Lao Tzu" "text"
                          ["Shorts"] "2024-02-28T09:00:00Z")
            world_with_video
  = Ok tt.
Proof.
  apply (upload_video_http_errors
           (scripted some_day (Ok (200, Ok two_quotes))
                     (fun _ => Raise (HttpError 403)))
           "temp/video_0.mp4" "Inspiration: Lao Tzu" "text" ["Shorts"]
           "2024-02-28T09:00:00Z" world_with_video
           (world_after
              (get_authenticated_service
                 (scripted some_day (Ok (200, Ok two_quotes))
                           (fun _ => Raise (HttpError 403))))
              world_with_video)
           (mk_creds true false true) 403).
  - reflexivity.
  - reflexivity.
  - reflexivity.
  - reflexivity.
Defined.

(** Another status is raised again. *)
Example upload_video_500 :
  result_of (upload_video (scripted some_day (Ok (200, Ok two_quotes))
                                    (fun _ => Raise (HttpError 500)))
                          "temp/video_0.mp4" "Inspiration: Lao Tzu" "text"
                          ["Shorts"] "2024-02-28T09:00:00Z")
            world_with_video
  = Raise (HttpError 500).
Proof. reflexivity. Qed.

(** ** Thumbnail *)

Lemma thumbnail_x (iw ih : Z) (bbox : bbox_t) :
  fst (thumbnail_xy iw ih bbox) = (iw - bbox_width bbox) / 2.
Proof. reflexivity. Qed.

Lemma load_font_cases (O : oracle) (name : string) (size : Z) (w : world) :
  (exists f, load_font O name size w = (Ok f, w))
  \/ (exists e, load_font O name size w = (Raise e, w)).
Proof.
  unfold load_font, try_except, external_val.
  destruct (truetype O w name size) as [f|e]; [left; eauto|].
  destruct (is_os_error e); [left|right]; eauto.
Qed.

Lemma create_thumbnail_opened (O : oracle) (title template out_path : string)
      (w : world) (iw ih : Z) (f : font) :
  image_open O w template = Ok (iw, ih) ->
  load_font O "arial.ttf" 52 w = (Ok f, w) ->
  create_thumbnail O title template out_path w
  = (emit (EvDrawText (fst (thumbnail_xy iw ih (textbbox O f title 2)))
                      (snd (thumbnail_xy iw ih (textbbox O f title 2))) title f) ;;;
     emit (EvSave out_path) ;;;
     external (fun w => image_save O w out_path) ;;;
     write_file out_path Blob) w.
Proof.
  intros Hopen Hf. unfold create_thumbnail.
  unfold bind at 1. unfold external_val at 1. rewrite Hopen.
  unfold bind at 1. rewrite Hf.
  destruct (thumbnail_xy iw ih (textbbox O f title 2)) as [x y]. reflexivity.
Qed.

Lemma create_thumbnail_no_font (O : oracle) (title template out_path : string)
      (w : world) (iw ih : Z) (e : exn) :
  image_open O w template = Ok (iw, ih) ->
  load_font O "arial.ttf" 52 w = (Raise e, w) ->
  create_thumbnail O title template out_path w = (Raise e, w).
Proof.
  intros Hopen Hf. unfold create_thumbnail.
  unfold bind at 1. unfold external_val at 1. rewrite Hopen.
  unfold bind at 1. rewrite Hf. reflexivity.
Qed.

(** The events of a thumbnail that is produced: the title is drawn once, at
    the position [thumbnail_xy] gives for the measured box, and the image is
    saved. *)
Lemma create_thumbnail_log (O : oracle) (title template out_path : string)
      (w : world) (iw ih : Z) :
  image_open O w template = Ok (iw, ih) ->
  result_of (create_thumbnail O title template out_path) w = Ok tt ->
  exists f,
    log (world_after (create_thumbnail O title template out_path) w)
    = log w ++ [EvDrawText (fst (thumbnail_xy iw ih (textbbox O f title 2)))
                           (snd (thumbnail_xy iw ih (textbbox O f title 2)))
                           title f;
                EvSave out_path].
Proof.
  intros Hopen Hok. unfold result_of, world_after in *.
  destruct (load_font_cases O "arial.ttf" 52 w) as [[f Hf] | [e He]].
  - exists f.
    rewrite (create_thumbnail_opened O title template out_path w iw ih f Hopen Hf).
    rewrite !emit_then.
    set (w2 := with_event (with_event w _) _).
    assert (Hs : logs no_events
                   (external (fun w => image_save O w out_path) ;;;
                    write_file out_path Blob)).
    { apply logs_bind; [apply closed_no_events|apply logs_external|intros _; apply logs_write_file];
        apply closed_no_events. }
    pose proof (logs_nothing _ w2 Hs) as E.
    unfold world_after in E. rewrite E. unfold w2. cbn [with_event log].
    rewrite <- app_assoc. reflexivity.
  - rewrite (create_thumbnail_no_font O title template out_path w iw ih e Hopen He) in Hok.
    discriminate.
Qed.

(** C8. For a template of size [iw] x [ih] and a title whose measured box
    has width [T], the thumbnail that [create_thumbnail] produces draws the
    title once, at the x-offset [(iw - T) / 2] (the integer quotient, as
    pixel positions are integers): the space left of the text and the space
    right of it differ by at most one pixel.  The y-offset leaves the text
    height and 50 pixels below. *)
Theorem create_thumbnail_centered (O : oracle) (title template out_path : string)
        (w : world) (iw ih : Z) :
  image_open O w template = Ok (iw, ih) ->
  result_of (create_thumbnail O title template out_path) w = Ok tt ->
  exists (f : font) (x y : Z),
    log (world_after (create_thumbnail O title template out_path) w)
    = log w ++ [EvDrawText x y title f; EvSave out_path]
    /\ x = (iw - bbox_width (textbbox O f title 2)) / 2
    /\ 0 <= (iw - (x + bbox_width (textbbox O f title 2))) - x <= 1
    /\ y = ih - bbox_height (textbbox O f title 2) - 50.
Proof.
  intros Hopen Hok.
  destruct (create_thumbnail_log O title template out_path w iw ih Hopen Hok)
    as [f E].
  exists f. eexists. eexists. split; [exact E|].
  unfold thumbnail_xy. cbn [fst snd].
  set (T := bbox_width (textbbox O f title 2)).
  split; [reflexivity|]. split; [|reflexivity].
  pose proof (Z.div_mod (iw - T) 2 ltac:(lia)).
  pose proof (Z.mod_pos_bound (iw - T) 2 ltac:(lia)). lia.
Qed.

Lemma create_thumbnail_centered_witness :
  exists (f : font) (y : Z),
    log (world_after
           (create_thumbnail (scripted some_day (Ok (200, Ok two_quotes))
                                       (fun _ => uploaded))
                             "Inspiration: Lao Tzu" TEMPLATE_THUMB "temp/thumb_1.png")
           empty_world)
    = [EvDrawText 400 y "Inspiration: Lao Tzu" f; EvSave "temp/thumb_1.png"].
Proof.
  destruct (create_thumbnail_centered
              (scripted some_day (Ok (200, Ok two_quotes)) (fun _ => uploaded))
              "Inspiration: Lao Tzu" TEMPLATE_THUMB "temp/thumb_1.png"
              empty_world 1280 720) as (f & x & y & E & Hx & _).
  - reflexivity.
  - reflexivity.
  - exists f, y. rewrite E. vm_compute in Hx. rewrite Hx. reflexivity.
Defined.

(** ** Clean-up *)

Lemma str_mem_app (c : ascii) (a b : string) :
  str_mem c (a +:+ b) = str_mem c a || str_mem c b.
Proof.
  induction a as [|x a IH]; [reflexivity|].
  cbn [str_mem]. change (String x a +:+ b) with (String x (a +:+ b)).
  cbn [str_mem]. rewrite IH. apply orb_assoc.
Qed.

Lemma digits_no_nul (d : Decimal.uint) :
  str_mem "000" (NilEmpty.string_of_uint d) = false.
Proof. induction d; cbn; assumption || reflexivity. Qed.

Lemma str_of_nat_no_nul (n : nat) : str_mem "000" (str_of_nat n) = false.
Proof.
  unfold str_of_nat, NilZero.string_of_uint.
  destruct (Nat.to_uint n) eqn:E; try reflexivity;
    rewrite <- E; apply digits_no_nul.
Qed.

Lemma artifact_paths_no_nul (idx : nat) :
  Forall (fun p => has_nul p = false) (artifact_paths idx).
Proof.
  unfold artifact_paths, voice_path, slide_path, video_path, thumb_path,
    path_join, has_nul.
  repeat constructor;
    rewrite !str_mem_app, str_of_nat_no_nul; reflexivity.
Qed.

(** One guarded removal: the attempt is logged, an [OSError] is swallowed. *)
Lemma guarded_remove (p : string) (w : world) :
  has_nul p = false ->
  try_except (os_remove p)
             (fun e => if is_os_error e then Some (ret tt) else None) w
  = (Ok tt, mk_world (unlink p (fs w)) (log w ++ [EvRemove p])).
Proof.
  intros Hp. unfold try_except, os_remove. rewrite emit_then.
  unfold with_event, unlink. cbn [fs log]. rewrite Hp.
  destruct (fs w !! p) as [[c|c|]|]; reflexivity.
Qed.

Lemma cleanup_run (paths : list string) (w : world) :
  Forall (fun p => has_nul p = false) paths ->
  cleanup paths w
  = (Ok tt, mk_world (unlink_all paths (fs w)) (log w ++ map EvRemove paths)).
Proof.
  intros H. revert w. induction H as [|p paths Hp _ IH]; intros w.
  - cbn. rewrite app_nil_r. destruct w; reflexivity.
  - cbn [cleanup]. unfold bind at 1. rewrite (guarded_remove p w Hp).
    rewrite IH. cbn [fs log unlink_all foldl map].
    rewrite <- app_assoc. reflexivity.
Qed.

Lemma unlink_not_regular (p : string) (m : gmap string node) :
  not_regular (unlink p m) p.
Proof.
  intros c. unfold unlink.
  destruct (m !! p) as [[c'|c'|]|] eqn:E.
  - rewrite lookup_delete_eq. discriminate.
  - rewrite E. discriminate.
  - rewrite E. discriminate.
  - rewrite E. discriminate.
Qed.

Lemma unlink_keeps_not_regular (p q : string) (m : gmap string node) :
  not_regular m p -> not_regular (unlink q m) p.
Proof.
  intros H c. unfold unlink.
  destruct (m !! q) as [[c'|c'|]|] eqn:E; try apply H.
  destruct (decide (q = p)) as [->|Hne].
  - rewrite lookup_delete_eq. discriminate.
  - rewrite lookup_delete_ne by exact Hne. apply H.
Qed.

Lemma unlink_all_keeps_not_regular (paths : list string) (p : string)
      (m : gmap string node) :
  not_regular m p -> not_regular (unlink_all paths m) p.
Proof.
  revert m. induction paths as [|q paths IH]; intros m H; [exact H|].
  cbn [unlink_all foldl]. apply IH. apply unlink_keeps_not_regular. exact H.
Qed.

Lemma unlink_all_not_regular (paths : list string) (p : string)
      (m : gmap string node) :
  p ∈ paths -> not_regular (unlink_all paths m) p.
Proof.
  revert m. induction paths as [|q paths IH]; intros m Hin.
  - inversion Hin.
  - cbn [unlink_all foldl]. apply elem_of_cons in Hin as [->|Hin].
    + apply unlink_all_keeps_not_regular. apply unlink_not_regular.
    + apply IH. exact Hin.
Qed.

Lemma unlink_id (p : string) (m : gmap string node) :
  not_regular m p -> unlink p m = m.
Proof.
  intros H. unfold unlink.
  destruct (m !! p) as [[c|c|]|] eqn:E; try reflexivity.
  exfalso. exact (H c E).
Qed.

Lemma unlink_all_id (paths : list string) (m : gmap string node) :
  Forall (not_regular m) paths -> unlink_all paths m = m.
Proof.
  induction 1 as [|p paths Hp _ IH]; [reflexivity|].
  cbn [unlink_all foldl]. rewrite (unlink_id p m Hp). exact IH.
Qed.

(** Removing twice is removing once. *)
Lemma unlink_all_idempotent (paths : list string) (m : gmap string node) :
  unlink_all paths (unlink_all paths m) = unlink_all paths m.
Proof.
  apply unlink_all_id. apply Forall_forall. intros p Hp.
  apply unlink_all_not_regular. exact Hp.
Qed.

(** C9. The clean-up of an item never raises, in any state of the file
    system: each of the four artifact paths is tried, in order, whether the
    earlier removals failed or not (a missing file, a directory and a
    protected file all raise an [OSError], which is swallowed); afterwards no
    artifact path holds a regular file, and cleaning up again, when
    everything is already removed, does not raise either and changes
    nothing. *)
Theorem cleanup_total_idempotent (idx : nat) (w : world) :
  exists w1,
    cleanup (artifact_paths idx) w = (Ok tt, w1)
    /\ log w1 = log w ++ map EvRemove (artifact_paths idx)
    /\ (forall p, p ∈ artifact_paths idx -> not_regular (fs w1) p)
    /\ (forall p, p ∈ artifact_paths idx ->
        fs w !! p = None -> fs w1 !! p = None)
    /\ exists w2,
         cleanup (artifact_paths idx) w1 = (Ok tt, w2) /\ fs w2 = fs w1.
Proof.
  pose proof (artifact_paths_no_nul idx) as Hn.
  eexists. split; [apply (cleanup_run _ w Hn)|]. cbn [fs log].
  split; [reflexivity|]. split; [|split].
  - intros p Hp. apply unlink_all_not_regular. exact Hp.
  - intros p _. generalize (artifact_paths idx). intros l. revert w.
    induction l as [|q l IH]; intros w Hw; [exact Hw|].
    cbn [unlink_all foldl].
    apply (IH (mk_world (unlink q (fs w)) (log w))). cbn [fs].
    unfold unlink. destruct (fs w !! q) as [[c|c|]|]; try exact Hw.
    destruct (decide (q = p)) as [->|Hne];
      [apply lookup_delete_eq|rewrite lookup_delete_ne by exact Hne; exact Hw].
  - eexists. split; [apply (cleanup_run _ _ Hn)|]. cbn [fs].
    apply unlink_all_idempotent.
Qed.

(** ** Clients built in a run *)

Lemma adds_builds_bind {A B} (n1 n2 : nat) (m : M A) (k : A -> M B) :
  adds_builds n1 m -> (forall a, adds_builds n2 (k a)) ->
  adds_builds (n1 + n2) (bind m k).
Proof.
  intros Hm Hk w Hok. specialize (Hm w).
  unfold result_of, world_after, bind in *.
  destruct (m w) as [[a|e] w1]; cbn [fst snd] in *; [|discriminate].
  pose proof (Hk a w1) as Ha. unfold result_of, world_after in Ha.
  rewrite (Ha Hok), (Hm eq_refl). lia.
Qed.

Lemma adds_builds_silent {A} (m : M A) : logs no_build m -> adds_builds 0 m.
Proof.
  intros H w _. destruct (H w) as [evs [E Hevs]].
  rewrite E, builds_app, Hevs. reflexivity.
Qed.

Lemma adds_builds_emit (c : credentials) : adds_builds 1 (emit (EvBuild c)).
Proof.
  intros w _. unfold world_after, emit. cbn [snd log].
  rewrite builds_app. reflexivity.
Qed.

Lemma no_build_event (e : event) : is_build e = false -> no_build [e].
Proof. destruct e; (discriminate || reflexivity). Qed.

Section Builds.
Variable O : oracle.

(** Each call of [get_authenticated_service] that returns has built one
    client. *)
Lemma get_authenticated_service_builds :
  adds_builds 1 (get_authenticated_service O).
Proof.
  unfold get_authenticated_service.
  apply (adds_builds_bind 0 1); [apply adds_builds_silent; logs_steps|intros present].
  apply (adds_builds_bind 0 1); [apply adds_builds_silent|intros creds].
  { destruct present; [|logs_steps].
    apply logs_bind; [solve_closed|apply logs_pickle_load; solve_closed|intros c; logs_steps]. }
  apply (adds_builds_bind 0 1); [apply adds_builds_silent|intros c].
  { unfold pickle_dump. logs_steps. }
  apply (adds_builds_bind 1 0); [apply adds_builds_emit|intros _].
  apply adds_builds_silent. logs_steps.
Qed.

Lemma upload_video_builds (video_fp title desc : string) (tags : list string)
      (publish_at : string) :
  adds_builds 1 (upload_video O video_fp title desc tags publish_at).
Proof.
  unfold upload_video.
  apply (adds_builds_bind 1 0); [apply get_authenticated_service_builds|intros _].
  apply adds_builds_silent.
  apply logs_bind; [solve_closed| |intros _].
  - apply logs_media_file_upload. solve_closed.
  - apply logs_insert_and_report; [solve_closed|apply no_build_event].
Qed.

Lemma process_item_builds (start : Datetime.datetime) (idx : nat)
      (entry : pydict) :
  adds_builds 1 (process_item O start idx entry).
Proof.
  unfold process_item.
  apply (adds_builds_bind 0 1); [apply adds_builds_silent|intros args].
  { apply logs_prepare_item; [solve_closed|apply no_build_event]. }
  apply (adds_builds_bind 1 0); [apply upload_video_builds|intros _].
  apply adds_builds_silent.
  apply logs_cleanup; [solve_closed|apply no_build_event].
Qed.

Lemma main_loop_builds (start : Datetime.datetime) (idx : nat)
      (quotes : list pydict) :
  adds_builds (length quotes) (main_loop O start idx quotes).
Proof.
  revert idx. induction quotes as [|entry rest IH]; intros idx.
  - apply adds_builds_silent. cbn [main_loop]. logs_steps.
  - cbn [main_loop length].
    apply (adds_builds_bind 1 (length rest)); [apply process_item_builds|].
    intros _. apply IH.
Qed.

End Builds.

(** A run with two quotes, both uploaded: a client is built for each. *)
Lemma main_builds_two_clients :
  filter is_build (log (world_after (main accepting) empty_world))
  = [EvBuild (mk_creds true false true); EvBuild (mk_creds true false true)]
  /\ ~ (builds (log (world_after (main accepting) empty_world)) <= 1)%nat.
Proof. split; [vm_compute; reflexivity|]. vm_compute. lia. Qed.

(** C6 (amended). [upload_video] calls [get_authenticated_service] each time
    it is called, and each call that returns has built a client: a run of
    [main] that completes has built one client per fetched quote.  What the
    calls share is the stored credential, not the client. *)
Theorem main_builds_client_per_item (O : oracle) (w : world) :
  result_of (main O) w = Ok tt ->
  exists (quotes : list pydict) (w1 : world),
    fetch_quotes O 10 w = (Ok quotes, w1)
    /\ builds (log (world_after (main O) w))
       = (builds (log w) + length quotes)%nat.
Proof.
  intros Hok. unfold result_of, world_after, main in *.
  unfold bind at 1 in Hok. unfold bind at 1.
  pose proof (logs_fetch_quotes O no_build closed_no_build no_build_event 10 w)
    as [evs [E Hevs]].
  unfold world_after in E.
  destruct (fetch_quotes O 10 w) as [[quotes|e] w1]; [|discriminate].
  exists quotes, w1. split; [reflexivity|].
  cbn [snd] in E. unfold bind, get_world in *.
  pose proof (main_loop_builds O (start_of (utcnow O w1)) 0 quotes w1) as Hb.
  unfold result_of, world_after in Hb. rewrite Hb.
  - rewrite E, builds_app, Hevs. lia.
  - rewrite Hok. reflexivity.
Qed.

Lemma main_builds_client_per_item_witness :
  builds (log (world_after (main accepting) empty_world)) = 2%nat.
Proof.
  destruct (main_builds_client_per_item accepting empty_world)
    as (quotes & w1 & Hf & Hb).
  - vm_compute. reflexivity.
  - rewrite Hb.
    assert (Hlen : match fst (fetch_quotes accepting 10 empty_world) with
                   | Ok l => length l
                   | Raise _ => 0%nat
                   end = 2%nat) by (vm_compute; reflexivity).
    rewrite Hf in Hlen. cbn [fst] in Hlen. rewrite Hlen. reflexivity.
Defined.

(** ** The loop after a refused upload *)

Lemma any_event (e : event) : any_events [e].
Proof. exact I. Qed.

Section Loop.
Variable O : oracle.

Lemma grows_get_authenticated_service :
  logs any_events (get_authenticated_service O).
Proof.
  unfold get_authenticated_service, pickle_dump.
  apply logs_bind; [solve_closed|logs_steps|intros present].
  apply logs_bind; [solve_closed| |intros creds; logs_steps].
  destruct present; [|logs_steps].
  apply logs_bind; [solve_closed|apply logs_pickle_load; solve_closed|intros c].
  logs_steps.
Qed.

Lemma grows_upload_video (video_fp title desc : string) (tags : list string)
      (publish_at : string) :
  logs any_events (upload_video O video_fp title desc tags publish_at).
Proof.
  unfold upload_video.
  apply logs_bind; [solve_closed|apply grows_get_authenticated_service|intros _].
  apply logs_bind; [solve_closed| |intros _].
  - apply logs_media_file_upload. solve_closed.
  - apply logs_insert_and_report; [solve_closed|intros e _; apply any_event].
Qed.

Lemma grows_process_item (start : Datetime.datetime) (idx : nat)
      (entry : pydict) :
  logs any_events (process_item O start idx entry).
Proof.
  unfold process_item.
  apply logs_bind; [solve_closed| |intros args].
  - apply logs_prepare_item; [solve_closed|intros e _; apply any_event].
  - apply logs_bind; [solve_closed|apply grows_upload_video|intros _].
    apply logs_cleanup; [solve_closed|intros e _; apply any_event].
Qed.

Lemma grows_main_loop (start : Datetime.datetime) (idx : nat)
      (quotes : list pydict) :
  logs any_events (main_loop O start idx quotes).
Proof.
  revert idx. induction quotes as [|entry rest IH]; intros idx; cbn [main_loop].
  - logs_steps.
  - apply logs_bind; [solve_closed|apply grows_process_item|intros _; apply IH].
Qed.

Lemma starts_with_emit {A} (e : event) (k : M A) :
  logs any_events k -> starts_with e (emit e ;;; k).
Proof.
  intros Hk w. unfold world_after. rewrite emit_then.
  destruct (Hk (with_event w e)) as [evs [E _]]. unfold world_after in E.
  exists evs. rewrite E. cbn [with_event log]. rewrite <- app_assoc. reflexivity.
Qed.

Lemma starts_with_bind {A B} (e : event) (m : M A) (k : A -> M B) :
  starts_with e m -> (forall a, logs any_events (k a)) ->
  starts_with e (bind m k).
Proof.
  intros Hm Hk w. destruct (Hm w) as [evs E].
  unfold world_after, bind in *.
  destruct (m w) as [[a|x] w1]; cbn [snd] in *.
  - destruct (Hk a w1) as [evs' [E' _]]. unfold world_after in E'.
    exists (evs ++ evs'). rewrite E', E, <- app_assoc. reflexivity.
  - exists evs. exact E.
Qed.

(** An item whose entry has both fields begins with its voice synthesis. *)
Lemma prepare_item_starts (start : Datetime.datetime) (idx : nat)
      (entry : pydict) (q a : json) :
  entry !! "author" = Some a -> entry !! "quote" = Some q ->
  starts_with (EvSynthesize (quote_line O q a) (voice_path idx))
              (prepare_item O start idx entry).
Proof.
  intros Ha Hq w.
  assert (E : prepare_item O start idx entry w
              = (synthesize_voice O (quote_line O q a) (voice_path idx) ;;;
                 generate_broll_slide O entry (slide_path idx) ;;;
                 assemble_video O (voice_path idx) (slide_path idx) (video_path idx) ;;;
                 create_thumbnail O ("Inspiration: " +:+ py_str O a) TEMPLATE_THUMB
                                  (thumb_path idx) ;;;
                 publish_at <- lift (publish_time start idx) ;;
                 hashtags <- lift (generate_hashtags entry) ;;
                 ret (mk_args (video_path idx) ("Inspiration: " +:+ py_str O a)
                              (quote_line O q a +:+ newline +:+ newline
                               +:+ str_join " " hashtags)
                              (map (str_strip "#") hashtags) publish_at)) w).
  { unfold prepare_item, dict_getitem. rewrite Ha, Hq. reflexivity. }
  unfold world_after. rewrite E. clear E.
  apply (starts_with_bind _ (synthesize_voice O _ _)).
  - unfold synthesize_voice. apply starts_with_emit. logs_steps.
  - intros _.
    repeat first
      [ apply logs_generate_broll_slide; [solve_closed|intros e _; apply any_event]
      | apply logs_assemble_video; [solve_closed|intros e _; apply any_event]
      | apply logs_create_thumbnail; [solve_closed|intros e _; apply any_event]
      | apply logs_lift; solve_closed | apply logs_ret; solve_closed
      | apply logs_bind; [ solve_closed | | intros ? ] ].
Qed.

Lemma main_loop_starts (start : Datetime.datetime) (idx : nat)
      (entry : pydict) (rest : list pydict) (q a : json) :
  entry !! "author" = Some a -> entry !! "quote" = Some q ->
  starts_with (EvSynthesize (quote_line O q a) (voice_path idx))
              (main_loop O start idx (entry :: rest)).
Proof.
  intros Ha Hq. cbn [main_loop]. unfold process_item.
  apply starts_with_bind; [|intros _; apply grows_main_loop].
  apply starts_with_bind; [apply prepare_item_starts; assumption|].
  intros args.
  apply logs_bind; [solve_closed|apply grows_upload_video|intros _].
  apply logs_cleanup; [solve_closed|intros e _; apply any_event].
Qed.

(** The loop body when the upload is refused with status 403: it returns,
    having printed the message and tried the four removals. *)
Lemma process_item_refused (start : Datetime.datetime) (idx : nat)
      (entry : pydict) (w w1 w2 : world) (args : upload_args) (c : credentials) :
  prepare_item O start idx entry w = (Ok args, w1) ->
  get_authenticated_service O w1 = (Ok c, w2) ->
  media_file_upload (a_video_fp args) w2 = (Ok tt, w2) ->
  videos_insert O
    (with_event w2 (EvInsert (body_of (a_title args) (a_desc args) (a_tags args)
                                      (a_publish_at args)) (a_video_fp args)))
    (body_of (a_title args) (a_desc args) (a_tags args) (a_publish_at args))
    (a_video_fp args) = Raise (HttpError 403) ->
  process_item O start idx entry w
  = (Ok tt,
     mk_world (unlink_all (artifact_paths idx) (fs w2))
              (log w2
               ++ [EvInsert (body_of (a_title args) (a_desc args) (a_tags args)
                                     (a_publish_at args)) (a_video_fp args);
                   EvPrint REMEDIATION]
               ++ map EvRemove (artifact_paths idx))).
Proof.
  intros Hprep Hauth Hmedia Hins. unfold process_item.
  unfold bind at 1. rewrite Hprep.
  unfold bind at 1.
  rewrite (upload_video_http_error O _ _ _ _ _ w1 w2 c 403 Hauth Hmedia Hins).
  cbn [Z.eqb Pos.eqb].
  rewrite cleanup_run by apply artifact_paths_no_nul.
  cbn [with_event fs log]. rewrite <- !app_assoc. reflexivity.
Qed.

End Loop.

(** A run of two quotes in which the first upload is refused with status
    403: the message is printed, the four files of item 0 are removed, and
    then the voice of item 1 is synthesized and its video assembled. *)
Lemma main_attempts_item_after_refusal :
  exists pre post,
    log (world_after (main refusing_first) empty_world)
    = pre ++ [EvPrint REMEDIATION] ++ map EvRemove (artifact_paths 0)
          ++ [EvSynthesize (quote_line refusing_first (JStr "Begin anyway.")
                                       (JStr "Lao Tzu"))
                           (voice_path 1)]
          ++ post
    /\ In (EvAssemble (voice_path 1) (slide_path 1) (video_path 1)) post
    /\ In (EvPrint "Uploaded video ID: vid") post.
Proof.
  exists (take 9 (log (world_after (main refusing_first) empty_world))),
         (drop 15 (log (world_after (main refusing_first) empty_world))).
  split; [vm_compute; reflexivity|].
  split; vm_compute; tauto.
Qed.

(** C5 (amended). When the upload of item [idx] is refused with status 403,
    the loop body still returns: the message is printed, the four files of
    the item are removed, and the loop goes on with item [idx + 1] exactly
    as after an accepted upload; the next item is attempted, beginning with
    its voice synthesis. *)
Theorem main_loop_continues_after_refusal (O : oracle)
        (start : Datetime.datetime) (idx : nat) (entry : pydict)
        (rest : list pydict) (w w1 w2 : world) (args : upload_args)
        (c : credentials) :
  prepare_item O start idx entry w = (Ok args, w1) ->
  get_authenticated_service O w1 = (Ok c, w2) ->
  media_file_upload (a_video_fp args) w2 = (Ok tt, w2) ->
  videos_insert O
    (with_event w2 (EvInsert (body_of (a_title args) (a_desc args) (a_tags args)
                                      (a_publish_at args)) (a_video_fp args)))
    (body_of (a_title args) (a_desc args) (a_tags args) (a_publish_at args))
    (a_video_fp args) = Raise (HttpError 403) ->
  exists w3,
    process_item O start idx entry w = (Ok tt, w3)
    /\ log w3
       = log w2
         ++ [EvInsert (body_of (a_title args) (a_desc args) (a_tags args)
                               (a_publish_at args)) (a_video_fp args);
             EvPrint REMEDIATION]
         ++ map EvRemove (artifact_paths idx)
    /\ main_loop O start idx (entry :: rest) w
       = main_loop O start (S idx) rest w3
    /\ (forall (next : pydict) (rest' : list pydict) (q a : json),
          rest = next :: rest' ->
          next !! "author" = Some a -> next !! "quote" = Some q ->
          exists evs,
            log (world_after (main_loop O start idx (entry :: rest)) w)
            = log w3 ++ EvSynthesize (quote_line O q a) (voice_path (S idx))
                     :: evs).
Proof.
  intros Hprep Hauth Hmedia Hins.
  pose proof (process_item_refused O start idx entry w w1 w2 args c
                Hprep Hauth Hmedia Hins) as E.
  eexists. split; [exact E|]. cbn [log].
  split; [reflexivity|].
  assert (Hloop : main_loop O start idx (entry :: rest) w
                  = main_loop O start (S idx) rest
                      (mk_world (unlink_all (artifact_paths idx) (fs w2))
                         (log w2
                          ++ [EvInsert (body_of (a_title args) (a_desc args)
                                                (a_tags args) (a_publish_at args))
                                       (a_video_fp args);
                              EvPrint REMEDIATION]
                          ++ map EvRemove (artifact_paths idx)))).
  { cbn [main_loop]. unfold bind at 1. rewrite E. reflexivity. }
  split; [exact Hloop|].
  intros next rest' q a -> Ha Hq.
  unfold world_after. rewrite Hloop.
  destruct (main_loop_starts O start (S idx) next rest' q a Ha Hq
              (mk_world (unlink_all (artifact_paths idx) (fs w2))
                 (log w2
                  ++ [EvInsert (body_of (a_title args) (a_desc args)
                                        (a_tags args) (a_publish_at args))
                               (a_video_fp args);
                      EvPrint REMEDIATION]
                  ++ map EvRemove (artifact_paths idx)))) as [evs Hevs].
  exists evs. exact Hevs.
Qed.

Lemma main_loop_continues_after_refusal_witness :
  exists w3,
    main_loop refusing_first (start_of some_day) 0 [maya_entry; lao_entry]
              empty_world
    = main_loop refusing_first (start_of some_day) 1 [lao_entry] w3.
Proof.
  edestruct (main_loop_continues_after_refusal
               refusing_first (start_of some_day) 0 maya_entry [lao_entry]
               empty_world) as (w3 & _ & _ & H & _).
  - vm_compute. reflexivity.
  - vm_compute. reflexivity.
  - vm_compute. reflexivity.
  - vm_compute. reflexivity.
  - exists w3. exact H.
Defined.

(** ** What an iteration hands to the upload *)

Lemma bind_ok {A B} (m : M A) (k : A -> M B) (w w' : world) (b : B) :
  bind m k w = (Ok b, w') ->
  exists a w1, m w = (Ok a, w1) /\ k a w1 = (Ok b, w').
Proof.
  unfold bind. destruct (m w) as [[a|e] w1]; [eauto|discriminate].
Qed.

Lemma lift_ok {A} (r : result A) (w w' : world) (a : A) :
  lift r w = (Ok a, w') -> r = Ok a.
Proof. unfold lift. intros [= -> _]. reflexivity. Qed.

(** The publish time, the tags and the video path that reach
    [upload_video] are the ones computed for the item. *)
Lemma prepare_item_args (O : oracle) (start : Datetime.datetime) (idx : nat)
      (entry : pydict) (w w1 : world) (args : upload_args) :
  prepare_item O start idx entry w = (Ok args, w1) ->
  exists hashtags,
    generate_hashtags entry = Ok hashtags
    /\ publish_time start idx = Ok (a_publish_at args)
    /\ a_tags args = map (str_strip "#") hashtags
    /\ a_video_fp args = video_path idx.
Proof.
  intros H. unfold prepare_item in H.
  apply bind_ok in H as (author & w2 & _ & H).
  apply bind_ok in H as (quote & w3 & _ & H).
  apply bind_ok in H as ([] & w4 & _ & H).
  apply bind_ok in H as ([] & w5 & _ & H).
  apply bind_ok in H as ([] & w6 & _ & H).
  apply bind_ok in H as ([] & w7 & _ & H).
  apply bind_ok in H as (publish_at & w8 & Hp & H).
  apply bind_ok in H as (hashtags & w9 & Hh & H).
  apply lift_ok in Hp, Hh.
  injection H as <- _. exists hashtags. cbn. auto.
Qed.

(** ** The stored credential *)

(** With a valid credential in the token file no authorization flow and no
    refresh is run: the client is built from the stored credential. *)
Lemma get_authenticated_service_cached (O : oracle) (w : world)
      (expired refresh_token : bool) :
  fs w !! TOKEN_FILE = Some (Regular (Pickled true expired refresh_token)) ->
  get_authenticated_service O w
  = (match build O (with_event w (EvBuild (mk_creds true expired refresh_token)))
                 (mk_creds true expired refresh_token) with
     | Some e => Raise e
     | None => Ok (mk_creds true expired refresh_token)
     end,
     with_event w (EvBuild (mk_creds true expired refresh_token))).
Proof.
  intros H. unfold get_authenticated_service.
  unfold bind at 1. unfold path_exists. rewrite H.
  rewrite bool_decide_eq_true_2 by eauto.
  unfold bind at 1. unfold bind at 1. unfold pickle_load. rewrite H.
  unfold ret at 1. unfold bind at 1. cbn [cr_valid]. unfold ret at 1.
  rewrite emit_then. unfold bind, external.
  destruct (build O _ _); reflexivity.
Qed.

(** A first call without a token file runs the flow and stores the
    credential it obtained. *)
Example token_stored_after_flow :
  fs (world_after (get_authenticated_service accepting) empty_world) !! TOKEN_FILE
  = Some (Regular (Pickled true false true)).
Proof. reflexivity. Qed.

(** * Further properties *)

(** ** Quotes: bounds and failures *)

Lemma map_result_length {A B} (f : A -> result B) (l : list A) (ys : list B) :
  map_result f l = Ok ys -> length ys = length l.
Proof.
  revert ys. induction l as [|x l IH]; intros ys H; cbn in H.
  - injection H as <-. reflexivity.
  - destruct (f x) as [y|e]; [|discriminate].
    destruct (map_result f l) as [ys'|e]; [|discriminate].
    injection H as <-. cbn. rewrite (IH ys' eq_refl). reflexivity.
Qed.

Lemma map_result_Forall {A B} (f : A -> result B) (l : list A) (ys : list B) :
  map_result f l = Ok ys -> Forall (fun y => exists x, f x = Ok y) ys.
Proof.
  revert ys. induction l as [|x l IH]; intros ys H; cbn in H.
  - injection H as <-. constructor.
  - destruct (f x) as [y|e] eqn:Ex; [|discriminate].
    destruct (map_result f l) as [ys'|e]; [|discriminate].
    injection H as <-. constructor; [eauto|]. apply IH. reflexivity.
Qed.

Lemma slice_to_length {A} (stop : Z) (l : list A) :
  0 <= stop -> Z.of_nat (length (slice_to stop l)) <= stop.
Proof.
  intros H. unfold slice_to. destruct (stop <? 0) eqn:E; [lia|].
  rewrite length_take. lia.
Qed.

Lemma py_slice_items_length (data : json) (stop : Z) (items : list json) :
  0 <= stop -> py_slice_items data stop = Ok items ->
  Z.of_nat (length items) <= stop.
Proof.
  intros H. destruct data; cbn; try discriminate; intros [= <-];
    apply slice_to_length; exact H.
Qed.

(** What [fetch_quotes] returns was made from some decoded response. *)
Lemma fetch_quotes_ok (O : oracle) (max_entries : Z) (w : world)
      (es : list pydict) :
  result_of (fetch_quotes O max_entries) w = Ok es ->
  exists data, quotes_of_json data max_entries = Ok es.
Proof.
  unfold result_of. destruct (fetch_quotes O max_entries w) as [r w'] eqn:E.
  cbn [fst]. intros ->. unfold fetch_quotes in E.
  apply bind_ok in E as ([] & w1 & _ & E).
  apply bind_ok in E as ([status body] & w2 & _ & E).
  apply bind_ok in E as ([] & w3 & _ & E).
  apply bind_ok in E as (data & w4 & _ & E).
  exists data. apply lift_ok in E. exact E.
Qed.

(** X1. Whatever the endpoint answers, a call of [fetch_quotes] with a
    non-negative [max_entries] that returns gives at most [max_entries]
    entries. *)
Theorem fetch_quotes_at_most (O : oracle) (max_entries : Z) (w : world)
        (es : list pydict) :
  0 <= max_entries ->
  result_of (fetch_quotes O max_entries) w = Ok es ->
  Z.of_nat (length es) <= max_entries.
Proof.
  intros Hmax H. apply fetch_quotes_ok in H as [data H].
  unfold quotes_of_json in H.
  destruct (py_slice_items data max_entries) as [items|e] eqn:Es; [|discriminate].
  rewrite (map_result_length _ _ _ H).
  apply (py_slice_items_length data); assumption.
Qed.

Lemma fetch_quotes_at_most_witness :
  Z.of_nat (length [maya_entry; lao_entry]) <= 10.
Proof.
  apply (fetch_quotes_at_most accepting 10 empty_world [maya_entry; lao_entry]).
  - lia.
  - reflexivity.
Defined.

Lemma quote_entry_keys (item : json) (e : pydict) :
  quote_entry item = Ok e ->
  dom e = ({["quote"; "author"]} : gset string)
  /\ (exists q, dict_getitem e "quote" = Ok q)
  /\ (exists a, dict_getitem e "author" = Ok a).
Proof.
  unfold quote_entry, py_get. destruct item; try discriminate.
  intros [= <-]. split; [|split].
  - rewrite !dom_insert_L, dom_empty_L. set_solver.
  - eexists. reflexivity.
  - eexists. reflexivity.
Qed.

(** X2. Every entry [fetch_quotes] returns, whatever the response was, has
    exactly the two keys "quote" and "author": the lookups [entry['quote']]
    and [entry['author']] of the later stages cannot raise [KeyError] on
    it. *)
Theorem fetch_quotes_entry_keys (O : oracle) (max_entries : Z) (w : world)
        (es : list pydict) :
  result_of (fetch_quotes O max_entries) w = Ok es ->
  Forall (fun e : pydict =>
            dom e = ({["quote"; "author"]} : gset string)
            /\ (exists q, dict_getitem e "quote" = Ok q)
            /\ (exists a, dict_getitem e "author" = Ok a)) es.
Proof.
  intros H. apply fetch_quotes_ok in H as [data H].
  unfold quotes_of_json in H.
  destruct (py_slice_items data max_entries) as [items|e]; [|discriminate].
  apply map_result_Forall in H.
  eapply Forall_impl; [exact H|].
  intros e [item Hitem]. exact (quote_entry_keys item e Hitem).
Qed.

Lemma fetch_quotes_entry_keys_witness :
  Forall (fun e : pydict =>
            dom e = ({["quote"; "author"]} : gset string)
            /\ (exists q, dict_getitem e "quote" = Ok q)
            /\ (exists a, dict_getitem e "author" = Ok a))
         [maya_entry; lao_entry].
Proof.
  apply (fetch_quotes_entry_keys accepting 10 empty_world). reflexivity.
Defined.

(** X3. When the endpoint answers with a 4xx or 5xx status,
    [raise_for_status] ends [fetch_quotes], and with it the whole run, with
    an exception: the body is not decoded and nothing but the request has
    happened. *)
Theorem bad_status_aborts_run (O : oracle) (w : world) (status_code : Z)
        (body : result json) (max_entries : Z) :
  requests_get O (world_at_get w) QUOTES_API_URL = Ok (status_code, body) ->
  400 <= status_code < 600 ->
  fetch_quotes O max_entries w = (Raise RequestException, world_at_get w)
  /\ main O w = (Raise RequestException, world_at_get w).
Proof.
  intros Hget Hst.
  assert (E : forall m, fetch_quotes O m w = (Raise RequestException, world_at_get w)).
  { intros m. unfold fetch_quotes, bind, emit, external_val.
    fold (world_at_get w). rewrite Hget.
    replace (400 <=? status_code) with true by (symmetry; apply Z.leb_le; lia).
    replace (status_code <? 600) with true by (symmetry; apply Z.ltb_lt; lia).
    reflexivity. }
  split; [apply E|].
  unfold main. unfold bind at 1. rewrite E. reflexivity.
Qed.

Lemma bad_status_aborts_run_witness :
  main (scripted some_day (Ok (503, Ok two_quotes)) (fun _ => uploaded))
       empty_world
  = (Raise RequestException, world_at_get empty_world).
Proof.
  apply (bad_status_aborts_run
           (scripted some_day (Ok (503, Ok two_quotes)) (fun _ => uploaded))
           empty_world 503 (Ok two_quotes) 10).
  - reflexivity.
  - lia.
Defined.

Lemma quote_entry_raises (item : json) (e : exn) :
  quote_entry item = Raise e -> e = AttributeError.
Proof.
  unfold quote_entry, py_get. destruct item; intros [= <-]; reflexivity.
Qed.

Lemma quote_entry_not_object (item : json) :
  is_obj item = false -> quote_entry item = Raise AttributeError.
Proof. destruct item; (discriminate || reflexivity). Qed.

Lemma map_result_quote_entry_fails (items : list json) (i : nat) (v : json) :
  items !! i = Some v -> is_obj v = false ->
  map_result quote_entry items = Raise AttributeError.
Proof.
  revert i. induction items as [|x items IH]; intros i Hi Hv; [discriminate|].
  cbn [map_result]. destruct (quote_entry x) as [y|e] eqn:Ex.
  - destruct i as [|i].
    + injection Hi as ->. rewrite (quote_entry_not_object v Hv) in Ex. discriminate.
    + rewrite (IH i Hi Hv). reflexivity.
  - rewrite (quote_entry_raises x e Ex). reflexivity.
Qed.

(** X4. One element that is not an object among the first [max_entries]
    elements of the response array makes [fetch_quotes] raise
    [AttributeError]: no partial list is returned, also not for the
    well-formed elements before it. *)
Theorem fetch_quotes_rejects_non_object (O : oracle) (w : world)
        (status_code max_entries : Z) (l : list json) (i : nat) (v : json) :
  requests_get O (world_at_get w) QUOTES_API_URL
  = Ok (status_code, Ok (JArr l)) ->
  status_ok status_code = true ->
  Z.of_nat i < max_entries ->
  l !! i = Some v -> is_obj v = false ->
  result_of (fetch_quotes O max_entries) w = Raise AttributeError.
Proof.
  intros Hget Hst Hi Hl Hv. unfold result_of.
  rewrite (fetch_quotes_answered O w status_code _ max_entries Hget Hst).
  cbn [fst]. unfold quotes_of_json, py_slice_items.
  apply (map_result_quote_entry_fails _ i v); [|exact Hv].
  unfold slice_to. destruct (max_entries <? 0) eqn:E; [lia|].
  rewrite lookup_take_lt by lia. exact Hl.
Qed.

Lemma fetch_quotes_rejects_non_object_witness :
  result_of (fetch_quotes
               (scripted some_day
                  (Ok (200, Ok (JArr [quote_obj "Stay curious." "Maya Angelou";
                                      JStr "Begin anyway."])))
                  (fun _ => uploaded)) 10) empty_world
  = Raise AttributeError.
Proof.
  apply (fetch_quotes_rejects_non_object
           (scripted some_day
              (Ok (200, Ok (JArr [quote_obj "Stay curious." "Maya Angelou";
                                  JStr "Begin anyway."])))
              (fun _ => uploaded))
           empty_world 200 10
           [quote_obj "Stay curious." "Maya Angelou"; JStr "Begin anyway."]
           1%nat (JStr "Begin anyway.")).
  - reflexivity.
  - reflexivity.
  - lia.
  - reflexivity.
  - reflexivity.
Defined.

(** X5. When the endpoint answers with an empty array the run completes at
    once: no stage runs, no client is built, no file is touched. *)
Theorem empty_response_completes (O : oracle) (w : world) (status_code : Z) :
  requests_get O (world_at_get w) QUOTES_API_URL
  = Ok (status_code, Ok (JArr [])) ->
  status_ok status_code = true ->
  main O w = (Ok tt, world_at_get w).
Proof.
  intros Hget Hst. unfold main. unfold bind at 1.
  rewrite (fetch_quotes_answered O w status_code _ 10 Hget Hst). reflexivity.
Qed.

Lemma empty_response_completes_witness :
  main (scripted some_day (Ok (200, Ok (JArr []))) (fun _ => uploaded))
       empty_world
  = (Ok tt, world_at_get empty_world).
Proof.
  apply (empty_response_completes
           (scripted some_day (Ok (200, Ok (JArr []))) (fun _ => uploaded))
           empty_world 200); reflexivity.
Defined.

(** ** Hashtags and metadata *)

Lemma str_lstrip_cons_same (c : ascii) (s : string) :
  str_lstrip c (String c s) = str_lstrip c s.
Proof. cbn. rewrite Ascii.eqb_refl. reflexivity. Qed.

Lemma str_strip_hash_tag (t : string) :
  str_strip "#" ("#" +:+ t) = str_strip "#" t.
Proof.
  unfold str_strip. change ("#" +:+ t) with (String "#" t).
  rewrite str_lstrip_cons_same. reflexivity.
Qed.

(** X6. [generate_hashtags] needs a string under "author": on an entry
    without the key it raises [KeyError], and on an author that is not a
    string ([null], a number, a list, ...) it raises [AttributeError]. *)
Theorem generate_hashtags_failures (entry : pydict) :
  (entry !! "author" = None -> generate_hashtags entry = Raise KeyError)
  /\ (forall v, entry !! "author" = Some v -> is_str v = false ->
                generate_hashtags entry = Raise AttributeError).
Proof.
  unfold generate_hashtags, dict_getitem. split.
  - intros ->. reflexivity.
  - intros v -> Hv. destruct v; (discriminate || reflexivity).
Qed.

Lemma lift_getitem_ok (entry : pydict) (k : string) (v x : json)
      (w w' : world) :
  entry !! k = Some v -> lift (dict_getitem entry k) w = (Ok x, w') -> x = v.
Proof.
  intros Hk H. apply lift_ok in H. unfold dict_getitem in H. rewrite Hk in H.
  injection H as <-. reflexivity.
Qed.

(** X7. For an entry whose author is the string [a], an iteration that
    reaches the upload hands it the title "Inspiration: " + [a], a
    description made of the quote line, an empty line and the six hashtags
    separated by single spaces, and as tags the five base names followed by
    the author tag without spaces (and without '#' at its ends). *)
Theorem prepare_item_metadata (O : oracle) (start : Datetime.datetime)
        (idx : nat) (entry : pydict) (w w1 : world) (args : upload_args)
        (a : string) (q : json) :
  entry !! "author" = Some (JStr a) -> entry !! "quote" = Some q ->
  prepare_item O start idx entry w = (Ok args, w1) ->
  a_title args = "Inspiration: " +:+ a
  /\ a_desc args
     = quote_line O q (JStr a) +:+ newline +:+ newline
       +:+ "#Inspiration #Motivation #DailyQuote #Viral #Shorts #"
       +:+ str_remove_char " " a
  /\ a_tags args
     = ["Inspiration"; "Motivation"; "DailyQuote"; "Viral"; "Shorts";
        str_strip "#" (str_remove_char " " a)].
Proof.
  intros Ha Hq H. unfold prepare_item in H.
  apply bind_ok in H as (author & w2 & Hauthor & H).
  apply (lift_getitem_ok entry "author" (JStr a)) in Hauthor; [|exact Ha].
  apply bind_ok in H as (quote & w3 & Hquote & H).
  apply (lift_getitem_ok entry "quote" q) in Hquote; [|exact Hq].
  subst author quote.
  apply bind_ok in H as ([] & w4 & _ & H).
  apply bind_ok in H as ([] & w5 & _ & H).
  apply bind_ok in H as ([] & w6 & _ & H).
  apply bind_ok in H as ([] & w7 & _ & H).
  apply bind_ok in H as (publish_at & w8 & _ & H).
  apply bind_ok in H as (hashtags & w9 & Hh & H).
  apply lift_ok in Hh. rewrite (generate_hashtags_of_author entry a Ha) in Hh.
  injection Hh as <-. injection H as <- _.
  cbn [a_title a_desc a_tags py_str]. split; [reflexivity|]. split.
  - reflexivity.
  - unfold expected_hashtags. cbn [map].
    rewrite str_strip_hash_tag. reflexivity.
Qed.

Lemma prepare_item_metadata_witness :
  a_tags (match result_of (prepare_item accepting (start_of some_day) 1 lao_entry)
                          empty_world with
          | Ok args => args
          | Raise _ => mk_args "" "" "" [] ""
          end)
  = ["Inspiration"; "Motivation"; "DailyQuote"; "Viral"; "Shorts"; "LaoTzu"].
Proof.
  destruct (prepare_item accepting (start_of some_day) 1 lao_entry empty_world)
    as [[args|e] w1] eqn:E; [|vm_compute in E; discriminate].
  unfold result_of. rewrite E. cbn [fst].
  destruct (prepare_item_metadata accepting (start_of some_day) 1 lao_entry
              empty_world w1 args "Lao Tzu" (JStr "Begin anyway."))
    as (_ & _ & Ht).
  - reflexivity.
  - reflexivity.
  - exact E.
  - rewrite Ht. reflexivity.
Defined.

(** X8. A response object without the "a" key becomes an entry whose
    author is the empty string; for it (as for any author made of spaces
    only) the last hashtag is the bare "#" and the last tag handed to the
    upload is the empty string. *)
Theorem blank_author_tags (entry : pydict) (a : string) :
  entry !! "author" = Some (JStr a) ->
  str_remove_char " " a = "" ->
  generate_hashtags entry
  = Ok ["#Inspiration"; "#Motivation"; "#DailyQuote"; "#Viral"; "#Shorts"; "#"]
  /\ (forall hashtags, generate_hashtags entry = Ok hashtags ->
        map (str_strip "#") hashtags
        = ["Inspiration"; "Motivation"; "DailyQuote"; "Viral"; "Shorts"; ""])
  /\ (forall m : pydict, m !! "a" = None ->
        generate_hashtags (entry_of m)
        = Ok ["#Inspiration"; "#Motivation"; "#DailyQuote"; "#Viral"; "#Shorts";
              "#"]).
Proof.
  intros Ha Hblank.
  pose proof (generate_hashtags_of_author entry a Ha) as E.
  unfold expected_hashtags in E. rewrite Hblank in E.
  split; [exact E|]. split.
  - intros hashtags H. rewrite E in H. injection H as <-. reflexivity.
  - intros m Hm.
    rewrite (generate_hashtags_of_author (entry_of m) "").
    + reflexivity.
    + rewrite entry_of_author, Hm. reflexivity.
Qed.

Lemma blank_author_tags_witness :
  generate_hashtags (<["author" := JStr "   "]> (<["quote" := JStr "Hush."]> ∅))
  = Ok ["#Inspiration"; "#Motivation"; "#DailyQuote"; "#Viral"; "#Shorts"; "#"].
Proof.
  destruct (blank_author_tags
              (<["author" := JStr "   "]> (<["quote" := JStr "Hush."]> ∅)) "   ")
    as [H _].
  - reflexivity.
  - reflexivity.
  - exact H.
Defined.

(** ** Upload: the other outcomes *)

Section UploadOutcomes.
Variable O : oracle.

Lemma upload_video_answered (video_fp title desc : string)
      (tags : list string) (publish_at : string) (w w1 : world)
      (c : credentials) :
  get_authenticated_service O w = (Ok c, w1) ->
  media_file_upload video_fp w1 = (Ok tt, w1) ->
  upload_video O video_fp title desc tags publish_at w
  = try_except (insert_and_report O (body_of title desc tags publish_at) video_fp)
               on_http_error w1.
Proof.
  intros Hauth Hmedia. unfold upload_video.
  unfold bind at 1. rewrite Hauth.
  unfold bind at 1. rewrite Hmedia. reflexivity.
Qed.

End UploadOutcomes.

(** X9. When the API call returns a response with an "id", [upload_video]
    prints "Uploaded video ID: " followed by the id and returns; nothing
    else is printed. *)
Theorem upload_video_accepted (O : oracle) (video_fp title desc : string)
        (tags : list string) (publish_at : string) (w w1 : world)
        (c : credentials) (res : pydict) (id : json) :
  get_authenticated_service O w = (Ok c, w1) ->
  media_file_upload video_fp w1 = (Ok tt, w1) ->
  videos_insert O (with_event w1 (EvInsert (body_of title desc tags publish_at)
                                           video_fp))
                (body_of title desc tags publish_at) video_fp
  = Ok res ->
  res !! "id" = Some id ->
  upload_video O video_fp title desc tags publish_at w
  = (Ok tt,
     mk_world (fs w1)
              (log w1 ++ [EvInsert (body_of title desc tags publish_at) video_fp;
                          EvPrint ("Uploaded video ID: " +:+ py_str O id)])).
Proof.
  intros Hauth Hmedia Hins Hid.
  rewrite (upload_video_answered O _ _ _ _ _ w w1 c Hauth Hmedia).
  unfold try_except, insert_and_report. rewrite emit_then.
  unfold bind at 1. unfold external_val at 1. rewrite Hins.
  unfold bind, lift, dict_getitem. rewrite Hid.
  unfold print, emit. cbn [with_event fs log].
  rewrite <- app_assoc. reflexivity.
Qed.

Lemma upload_video_accepted_witness :
  result_of (upload_video accepting "temp/video_0.mp4" "Inspiration: Lao Tzu"
                          "text" ["Shorts"] "2024-02-28T09:00:00Z")
            world_with_video
  = Ok tt.
Proof.
  unfold result_of.
  rewrite (upload_video_accepted accepting
             "temp/video_0.mp4" "Inspiration: Lao Tzu" "text" ["Shorts"]
             "2024-02-28T09:00:00Z" world_with_video
             (world_after (get_authenticated_service accepting) world_with_video)
             (mk_creds true false true) (<["id" := JStr "vid"]> ∅) (JStr "vid"));
    reflexivity.
Defined.

(** X10. Only [HttpError] is handled around the API call: any other
    exception it raises leaves [upload_video] unchanged and nothing is
    printed; and a response without an "id" raises [KeyError] although the
    request was made. *)
Theorem upload_video_other_failures (O : oracle) (video_fp title desc : string)
        (tags : list string) (publish_at : string) (w w1 : world)
        (c : credentials) :
  get_authenticated_service O w = (Ok c, w1) ->
  media_file_upload video_fp w1 = (Ok tt, w1) ->
  (forall e,
     videos_insert O (with_event w1 (EvInsert (body_of title desc tags publish_at)
                                              video_fp))
                   (body_of title desc tags publish_at) video_fp
     = Raise e ->
     is_http_error e = false ->
     upload_video O video_fp title desc tags publish_at w
     = (Raise e,
        with_event w1 (EvInsert (body_of title desc tags publish_at) video_fp)))
  /\ (forall res,
        videos_insert O (with_event w1 (EvInsert (body_of title desc tags publish_at)
                                                 video_fp))
                      (body_of title desc tags publish_at) video_fp
        = Ok res ->
        res !! "id" = None ->
        upload_video O video_fp title desc tags publish_at w
        = (Raise KeyError,
           with_event w1 (EvInsert (body_of title desc tags publish_at) video_fp))).
Proof.
  intros Hauth Hmedia.
  rewrite (upload_video_answered O _ _ _ _ _ w w1 c Hauth Hmedia).
  split.
  - intros e Hins He.
    unfold try_except, insert_and_report. rewrite emit_then.
    unfold bind at 1. unfold external_val at 1. rewrite Hins.
    destruct e; (discriminate || reflexivity).
  - intros res Hins Hid.
    unfold try_except, insert_and_report. rewrite emit_then.
    unfold bind at 1. unfold external_val at 1. rewrite Hins.
    unfold bind, lift, dict_getitem. rewrite Hid. reflexivity.
Qed.

Lemma upload_video_other_failures_witness :
  upload_video (scripted some_day (Ok (200, Ok two_quotes))
                         (fun _ => Raise (OtherError "ConnectionResetError")))
               "temp/video_0.mp4" "Inspiration: Lao Tzu" "text" ["Shorts"]
               "2024-02-28T09:00:00Z" world_with_video
  = (Raise (OtherError "ConnectionResetError"),
     with_event
       (world_after (get_authenticated_service accepting) world_with_video)
       (EvInsert (body_of "Inspiration: Lao Tzu" "text" ["Shorts"]
                          "2024-02-28T09:00:00Z") "temp/video_0.mp4")).
Proof.
  apply (upload_video_other_failures
           (scripted some_day (Ok (200, Ok two_quotes))
                     (fun _ => Raise (OtherError "ConnectionResetError")))
           "temp/video_0.mp4" "Inspiration: Lao Tzu" "text" ["Shorts"]
           "2024-02-28T09:00:00Z" world_with_video
           (world_after (get_authenticated_service accepting) world_with_video)
           (mk_creds true false true)); reflexivity.
Defined.

(** ** What every run keeps *)

Lemma closed_guarded : closed (Forall guarded_request).
Proof. split; [constructor|]. intros a b Ha Hb. apply Forall_app. split; assumption. Qed.

(** Breaks a computation into its steps for a property [Hc] proves closed;
    the events met must satisfy it by construction. *)
Ltac steps_with Hc :=
  repeat first
    [ apply logs_ret; exact Hc
    | apply logs_raise; exact Hc
    | apply logs_lift; exact Hc
    | apply logs_get_world; exact Hc
    | apply logs_external; exact Hc
    | apply logs_external_val; exact Hc
    | apply logs_write_file; exact Hc
    | apply logs_path_exists; exact Hc
    | apply logs_pickle_load; exact Hc
    | apply logs_media_file_upload; exact Hc
    | apply logs_emit; repeat constructor
    | apply logs_guarded; [ exact Hc | ]
    | apply logs_bind; [ exact Hc | | intros ? ]
    | match goal with
      | |- logs _ (match ?x with _ => _ end) => destruct x
      end ].

Section Guarded.
Variable O : oracle.

Lemma guarded_fetch_quotes (max_entries : Z) :
  logs (Forall guarded_request) (fetch_quotes O max_entries).
Proof. unfold fetch_quotes. steps_with closed_guarded. Qed.

Lemma guarded_prepare_item (start : Datetime.datetime) (idx : nat)
      (entry : pydict) :
  logs (Forall guarded_request) (prepare_item O start idx entry).
Proof.
  unfold prepare_item, synthesize_voice, generate_broll_slide, assemble_video,
    create_thumbnail, load_font.
  steps_with closed_guarded.
Qed.

Lemma guarded_upload_video (video_fp title desc : string) (tags : list string)
      (publish_at : string) :
  logs (Forall guarded_request)
       (upload_video O video_fp title desc tags publish_at).
Proof.
  unfold upload_video.
  apply logs_bind; [exact closed_guarded| |intros _].
  - unfold get_authenticated_service, pickle_dump. steps_with closed_guarded.
  - apply logs_bind; [exact closed_guarded| |intros _].
    + apply logs_media_file_upload. exact closed_guarded.
    + apply logs_try_except; [exact closed_guarded| |].
      * unfold insert_and_report, print. steps_with closed_guarded.
      * intros e h. destruct e; try discriminate. cbn [on_http_error].
        intros [= <-]. unfold print. steps_with closed_guarded.
Qed.

Lemma guarded_cleanup (paths : list string) :
  logs (Forall guarded_request) (cleanup paths).
Proof.
  induction paths as [|p paths IH]; cbn [cleanup]; [steps_with closed_guarded|].
  apply logs_bind; [exact closed_guarded| |intros _; exact IH].
  apply logs_guarded; [exact closed_guarded|].
  unfold os_remove. apply logs_bind; [exact closed_guarded| |intros _].
  - apply logs_emit. repeat constructor.
  - intros w. exists []. split; [|constructor].
    unfold world_after. destruct (has_nul p); [symmetry; apply app_nil_r|].
    destruct (fs w !! p) as [[| |]|]; symmetry; apply app_nil_r.
Qed.

Lemma guarded_main_loop (start : Datetime.datetime) (idx : nat)
      (quotes : list pydict) :
  logs (Forall guarded_request) (main_loop O start idx quotes).
Proof.
  revert idx. induction quotes as [|entry rest IH]; intros idx; cbn [main_loop].
  - steps_with closed_guarded.
  - apply logs_bind; [exact closed_guarded| |intros _; apply IH].
    unfold process_item.
    apply logs_bind; [exact closed_guarded|apply guarded_prepare_item|intros args].
    apply logs_bind; [exact closed_guarded|apply guarded_upload_video|intros _].
    apply guarded_cleanup.
Qed.

Lemma guarded_main : logs (Forall guarded_request) (main O).
Proof.
  unfold main.
  apply logs_bind; [exact closed_guarded|apply guarded_fetch_quotes|intros quotes].
  apply logs_bind; [exact closed_guarded| |intros w].
  - apply logs_get_world. exact closed_guarded.
  - apply guarded_main_loop.
Qed.

End Guarded.

(** X11. In every run, however the services answer and wherever the run
    stops, each upload request that was made is private, declared not made
    for kids and addressed to the configured channel: the script never
    publishes a video directly. *)
Theorem every_request_private (O : oracle) (w : world) :
  exists evs,
    log (world_after (main O) w) = log w ++ evs
    /\ forall body media,
         In (EvInsert body media) evs ->
         privacyStatus body = "private"
         /\ selfDeclaredMadeForKids body = false
         /\ channelId body = CHANNEL_ID.
Proof.
  destruct (guarded_main O w) as [evs [E H]].
  exists evs. split; [exact E|].
  intros body media Hin. rewrite Forall_forall in H.
  apply (H (EvInsert body media)). apply list_elem_of_In. exact Hin.
Qed.

(** ** Failures that end the run *)

Section Aborts.
Variable O : oracle.

Lemma main_loop_raises (start : Datetime.datetime) (idx : nat)
      (entry : pydict) (rest : list pydict) (w w' : world) (e : exn) :
  process_item O start idx entry w = (Raise e, w') ->
  main_loop O start idx (entry :: rest) w = (Raise e, w').
Proof. intros H. cbn [main_loop]. unfold bind. rewrite H. reflexivity. Qed.

End Aborts.

(** X12. When the upload of an item fails with an [HttpError] whose status
    is not 403, the loop body raises it at once: the item's files are not
    removed (no removal is even tried), and the loop ends there, so no later
    item is attempted. *)
Theorem other_status_aborts_run (O : oracle) (start : Datetime.datetime)
        (idx : nat) (entry : pydict) (rest : list pydict) (w w1 w2 : world)
        (args : upload_args) (c : credentials) (status : Z) :
  prepare_item O start idx entry w = (Ok args, w1) ->
  get_authenticated_service O w1 = (Ok c, w2) ->
  media_file_upload (a_video_fp args) w2 = (Ok tt, w2) ->
  videos_insert O
    (with_event w2 (EvInsert (body_of (a_title args) (a_desc args) (a_tags args)
                                      (a_publish_at args)) (a_video_fp args)))
    (body_of (a_title args) (a_desc args) (a_tags args) (a_publish_at args))
    (a_video_fp args) = Raise (HttpError status) ->
  status <> 403 ->
  main_loop O start idx (entry :: rest) w
  = (Raise (HttpError status),
     mk_world (fs w2)
       (log w2 ++ [EvInsert (body_of (a_title args) (a_desc args) (a_tags args)
                                     (a_publish_at args)) (a_video_fp args)])).
Proof.
  intros Hprep Hauth Hmedia Hins Hne.
  apply main_loop_raises. unfold process_item.
  unfold bind at 1. rewrite Hprep.
  unfold bind at 1.
  rewrite (upload_video_http_error O _ _ _ _ _ w1 w2 c status Hauth Hmedia Hins).
  apply Z.eqb_neq in Hne. rewrite Hne. reflexivity.
Qed.

Lemma other_status_aborts_run_witness :
  result_of (main_loop (scripted some_day (Ok (200, Ok two_quotes))
                                 (fun _ => Raise (HttpError 500)))
                       (start_of some_day) 0 [maya_entry; lao_entry])
            empty_world
  = Raise (HttpError 500).
Proof.
  unfold result_of.
  erewrite (other_status_aborts_run
              (scripted some_day (Ok (200, Ok two_quotes))
                        (fun _ => Raise (HttpError 500)))
              (start_of some_day) 0 maya_entry [lao_entry] empty_world).
  - reflexivity.
  - vm_compute. reflexivity.
  - vm_compute. reflexivity.
  - vm_compute. reflexivity.
  - vm_compute. reflexivity.
  - lia.
Defined.



(** ** The credential *)

Section Credential.
Variable O : oracle.

Lemma write_file_ok (p : string) (c : content) (w w' : world) :
  write_file p c w = (Ok tt, w') ->
  fs w' = <[p := Regular c]> (fs w) /\ log w' = log w.
Proof.
  unfold write_file. destruct (has_nul p); [discriminate|].
  destruct (fs w !! p) as [[| |]|]; try discriminate;
    intros [= <-]; split; reflexivity.
Qed.

(** The end of [get_authenticated_service]: the client is built from the
    credential at hand. *)
Lemma build_client (c : credentials) (w : world) :
  (emit (EvBuild c) ;;; external (fun w => build O w c) ;;; ret c) w
  = (match build O (with_event w (EvBuild c)) c with
     | Some e => Raise e
     | None => Ok c
     end, with_event w (EvBuild c)).
Proof.
  rewrite emit_then. unfold bind, external, ret.
  destruct (build O _ c); reflexivity.
Qed.

(** With a valid credential in the token file, whatever its permissions,
    nothing but the construction of the client happens. *)
Lemma stored_valid_credential (w : world) (c : credentials) :
  holds_credential (fs w) c -> cr_valid c = true ->
  get_authenticated_service O w
  = (match build O (with_event w (EvBuild c)) c with
     | Some e => Raise e
     | None => Ok c
     end, with_event w (EvBuild c)).
Proof.
  intros H Hv. destruct c as [v e r]. cbn in Hv. subst v.
  unfold holds_credential in H. cbn [cr_valid cr_expired cr_refresh_token] in H.
  unfold get_authenticated_service.
  unfold bind at 1. unfold path_exists.
  rewrite bool_decide_eq_true_2 by (destruct H as [H|H]; rewrite H; eauto).
  unfold bind at 1. unfold bind at 1. unfold pickle_load.
  destruct H as [H|H]; rewrite H; unfold ret at 1; unfold bind at 1;
    cbn [cr_valid]; unfold ret at 1; apply build_client.
Qed.

(** Obtaining a credential and storing it leaves it in the token file. *)
Lemma obtain_and_store (m : M credentials) (w w' : world) (c : credentials) :
  (c' <- m ;; pickle_dump c' TOKEN_FILE ;;; ret c') w = (Ok c, w') ->
  holds_credential (fs w') c.
Proof.
  intros H. apply bind_ok in H as (c' & w1 & _ & H).
  apply bind_ok in H as ([] & w2 & Hdump & H).
  injection H as <- <-. apply write_file_ok in Hdump as [Hfs _].
  left. rewrite Hfs. apply lookup_insert_eq.
Qed.

(** Whenever [get_authenticated_service] returns, the token file holds the
    credential the client was built from. *)
Lemma returned_credential_stored (w w1 : world) (c : credentials) :
  get_authenticated_service O w = (Ok c, w1) ->
  holds_credential (fs w1) c
  /\ exists evs, log w1 = log w ++ evs ++ [EvBuild c].
Proof.
  intros H. unfold get_authenticated_service in H.
  apply bind_ok in H as (present & w2 & Hp & H).
  unfold path_exists in Hp. injection Hp as <- <-.
  apply bind_ok in H as (stored & w3 & Hload & H).
  apply bind_ok in H as (creds & w4 & Hcred & H).
  rewrite build_client in H.
  destruct (build O _ creds); [discriminate|]. injection H as <- <-.
  cbn [with_event fs log].
  assert (Hw3 : w3 = w
                /\ (forall c0, stored = Some c0 -> holds_credential (fs w) c0)).
  { destruct (bool_decide (is_Some (fs w !! TOKEN_FILE))).
    - apply bind_ok in Hload as (c0 & w5 & Hl & Hr).
      injection Hr as <- <-. unfold pickle_load in Hl.
      unfold holds_credential.
      destruct (fs w !! TOKEN_FILE) as [[[|v e r]|[|v e r]|]|]; try discriminate;
        injection Hl as <- <-; (split; [reflexivity|]); intros c0 [= <-]; auto.
    - injection Hload as <- <-. split; [reflexivity|]. discriminate. }
  destruct Hw3 as [-> Hstored].
  assert (Hgrow : logs any_events
            (match stored with
             | Some c0 =>
               if cr_valid c0 then ret c0
               else
                 c' <- (if cr_expired c0 && cr_refresh_token c0
                        then emit EvRefresh ;;;
                             external_val (fun w => creds_refresh O w c0)
                        else emit EvFlow ;;; external_val (run_local_server O)) ;;
                 pickle_dump c' TOKEN_FILE ;;; ret c'
             | None =>
               c' <- (emit EvFlow ;;; external_val (run_local_server O)) ;;
               pickle_dump c' TOKEN_FILE ;;; ret c'
             end)).
  { unfold pickle_dump. logs_steps. }
  destruct (Hgrow w) as [evs [Hevs _]].
  unfold world_after in Hevs. rewrite Hcred in Hevs. cbn [snd] in Hevs.
  split.
  - destruct stored as [c0|].
    + destruct (cr_valid c0) eqn:Hv.
      * injection Hcred as <- <-. apply Hstored. reflexivity.
      * apply obtain_and_store in Hcred. exact Hcred.
    + apply obtain_and_store in Hcred. exact Hcred.
  - exists evs. rewrite Hevs, <- app_assoc. reflexivity.
Qed.

End Credential.

(** X14. When the token file holds a valid credential, a call of
    [get_authenticated_service] runs neither the authorization flow nor a
    refresh and rewrites nothing: all it does is to build the client from
    the stored credential. *)
Theorem valid_token_is_reused (O : oracle) (w : world) (c : credentials) :
  holds_credential (fs w) c -> cr_valid c = true ->
  world_after (get_authenticated_service O) w = with_event w (EvBuild c)
  /\ (build O (with_event w (EvBuild c)) c = None ->
      result_of (get_authenticated_service O) w = Ok c).
Proof.
  intros H Hv. unfold world_after, result_of.
  rewrite (stored_valid_credential O w c H Hv). split; [reflexivity|].
  intros ->. reflexivity.
Qed.

Lemma valid_token_is_reused_witness :
  log (world_after (get_authenticated_service accepting)
                   (world_with_token true false true))
  = [EvBuild (mk_creds true false true)].
Proof.
  destruct (valid_token_is_reused accepting (world_with_token true false true)
              (mk_creds true false true)) as [E _].
  - left. reflexivity.
  - reflexivity.
  - rewrite E. reflexivity.
Defined.

(** X15. When the token file holds a credential that is not valid but
    expired with a refresh token, the credential is refreshed, not obtained
    anew: no authorization flow runs, the refreshed credential replaces the
    stored one, and the client is built from it. *)
Theorem expired_token_is_refreshed (O : oracle) (w : world)
        (c' : credentials) :
  fs w !! TOKEN_FILE = Some (Regular (Pickled false true true)) ->
  creds_refresh O (with_event w EvRefresh) (mk_creds false true true) = Ok c' ->
  build O (mk_world
             (<[TOKEN_FILE := Regular (Pickled (cr_valid c') (cr_expired c')
                                               (cr_refresh_token c'))]> (fs w))
             (log w ++ [EvRefresh; EvBuild c'])) c' = None ->
  get_authenticated_service O w
  = (Ok c',
     mk_world
       (<[TOKEN_FILE := Regular (Pickled (cr_valid c') (cr_expired c')
                                         (cr_refresh_token c'))]> (fs w))
       (log w ++ [EvRefresh; EvBuild c'])).
Proof.
  intros Hfs Href Hbuild. unfold get_authenticated_service.
  unfold bind at 1. unfold path_exists. rewrite Hfs.
  rewrite bool_decide_eq_true_2 by eauto.
  unfold bind at 1. unfold bind at 1. unfold pickle_load. rewrite Hfs.
  unfold ret at 1. unfold bind at 1.
  cbn [cr_valid cr_expired cr_refresh_token andb].
  unfold bind at 1. rewrite emit_then. unfold external_val at 1. rewrite Href.
  unfold bind at 1. unfold pickle_dump, write_file.
  cbn [with_event fs log]. rewrite Hfs.
  change (has_nul TOKEN_FILE) with false. cbn iota.
  unfold ret at 1. rewrite emit_then. unfold with_event. cbn [fs log].
  rewrite <- app_assoc. cbn [app].
  unfold bind, external. rewrite Hbuild. reflexivity.
Qed.

Lemma expired_token_is_refreshed_witness :
  log (world_after (get_authenticated_service accepting)
                   (world_with_token false true true))
  = [EvRefresh; EvBuild (mk_creds true false true)].
Proof.
  unfold world_after.
  rewrite (expired_token_is_refreshed accepting (world_with_token false true true)
             (mk_creds true false true)); reflexivity.
Defined.

(** X16. Without a token file the authorization flow runs once, the
    credential it returns is written to the token file, and the client is
    built from it; if the flow fails nothing is written and no client is
    built. *)
Theorem missing_token_runs_flow (O : oracle) (w : world) :
  fs w !! TOKEN_FILE = None ->
  (forall c',
     run_local_server O (with_event w EvFlow) = Ok c' ->
     build O (mk_world
                (<[TOKEN_FILE := Regular (Pickled (cr_valid c') (cr_expired c')
                                                  (cr_refresh_token c'))]> (fs w))
                (log w ++ [EvFlow; EvBuild c'])) c' = None ->
     get_authenticated_service O w
     = (Ok c',
        mk_world
          (<[TOKEN_FILE := Regular (Pickled (cr_valid c') (cr_expired c')
                                            (cr_refresh_token c'))]> (fs w))
          (log w ++ [EvFlow; EvBuild c'])))
  /\ (forall e,
        run_local_server O (with_event w EvFlow) = Raise e ->
        get_authenticated_service O w = (Raise e, with_event w EvFlow)).
Proof.
  intros Hfs.
  assert (Hstart : get_authenticated_service O w
    = (creds <- (c' <- (emit EvFlow ;;; external_val (run_local_server O)) ;;
                 pickle_dump c' TOKEN_FILE ;;; ret c') ;;
       emit (EvBuild creds) ;;; external (fun w => build O w creds) ;;; ret creds) w).
  { unfold get_authenticated_service.
    unfold bind at 1. unfold path_exists. rewrite Hfs.
    rewrite bool_decide_eq_false_2 by (intros [x Hx]; discriminate).
    unfold bind at 1. reflexivity. }
  rewrite Hstart. split.
  - intros c' Hflow Hbuild.
    unfold bind at 1. unfold bind at 1. rewrite emit_then.
    unfold external_val at 1. rewrite Hflow.
    unfold bind at 1. unfold pickle_dump, write_file.
    cbn [with_event fs log]. rewrite Hfs.
    change (has_nul TOKEN_FILE) with false. cbn iota.
    unfold ret at 1. rewrite emit_then. unfold with_event. cbn [fs log].
    rewrite <- app_assoc. cbn [app].
    unfold bind, external. rewrite Hbuild. reflexivity.
  - intros e Hflow.
    unfold bind at 1. unfold bind at 1. rewrite emit_then.
    unfold external_val at 1. rewrite Hflow. reflexivity.
Qed.

Lemma missing_token_runs_flow_witness :
  log (world_after (get_authenticated_service accepting) empty_world)
  = [EvFlow; EvBuild (mk_creds true false true)].
Proof.
  destruct (missing_token_runs_flow accepting empty_world) as [H _].
  - reflexivity.
  - unfold world_after. rewrite (H (mk_creds true false true)); reflexivity.
Defined.

(** X17. Whenever [get_authenticated_service] returns a credential, the
    token file holds that credential and the last thing done was to build
    the client from it; if the credential is valid, the next call in the
    same run reuses it: it runs no flow and no refresh and only builds
    another client. *)
Theorem credential_shared_between_calls (O : oracle) (w w1 : world)
        (c : credentials) :
  get_authenticated_service O w = (Ok c, w1) ->
  holds_credential (fs w1) c
  /\ (exists evs, log w1 = log w ++ evs ++ [EvBuild c])
  /\ (cr_valid c = true ->
      world_after (get_authenticated_service O) w1 = with_event w1 (EvBuild c)).
Proof.
  intros H. destruct (returned_credential_stored O w w1 c H) as [Hs Hl].
  split; [exact Hs|]. split; [exact Hl|].
  intros Hv. unfold world_after.
  rewrite (stored_valid_credential O w1 c Hs Hv). reflexivity.
Qed.

Lemma credential_shared_between_calls_witness :
  log (world_after (get_authenticated_service accepting)
         (world_after (get_authenticated_service accepting) empty_world))
  = [EvFlow; EvBuild (mk_creds true false true);
     EvBuild (mk_creds true false true)].
Proof.
  destruct (credential_shared_between_calls accepting empty_world
              (world_after (get_authenticated_service accepting) empty_world)
              (mk_creds true false true)) as (_ & _ & H).
  - reflexivity.
  - rewrite H by reflexivity. reflexivity.
Defined.

(** ** The schedule: order and range *)

Section Schedule.
Import Datetime DatetimeFacts.

Lemma toordinal_max (now : datetime) :
  valid_datetime now -> toordinal now <= MAXORDINAL.
Proof.
  intros [[Hy [Hm Hd]] _]. unfold toordinal.
  pose proof (ymd2ord_bounds (year now) (month now) (day now) Hm Hd) as [_ H].
  pose proof (days_before_year_mono (year now + 1) 10000) as Hmono.
  unfold MAXYEAR in Hy.
  change (days_before_year 10000) with 3652059 in Hmono.
  unfold MAXORDINAL. lia.
Qed.

Lemma seconds_of_publish (now : datetime) (idx : nat) (dt : datetime) :
  valid_datetime now ->
  toordinal now + Z.of_nat idx / 5 <= MAXORDINAL ->
  publish_datetime (start_of now) idx = Ok dt ->
  seconds_of dt
  = (toordinal now + Z.of_nat idx / 5) * 86400
    + (9 + 2 * (Z.of_nat idx mod 5)) * 3600.
Proof.
  intros Hv Hmax H. rewrite (publish_datetime_eq now Hv idx Hmax) in H.
  destruct (ord2ymd (toordinal now + Z.of_nat idx / 5)) as [[y m] d] eqn:E.
  injection H as <-. unfold seconds_of.
  cbn [hour minute second].
  change (toordinal (mk_datetime y m d (9 + 2 * (Z.of_nat idx mod 5)) 0 0 0))
    with (ymd2ord y m d).
  rewrite (ymd2ord_ord2ymd _ _ _ _ E). lia.
Qed.

Lemma publish_datetime_defined (now : datetime) (idx : nat) :
  valid_datetime now ->
  toordinal now + Z.of_nat idx / 5 <= MAXORDINAL ->
  exists dt, publish_datetime (start_of now) idx = Ok dt.
Proof.
  intros Hv Hmax. rewrite (publish_datetime_eq now Hv idx Hmax).
  destruct (ord2ymd _) as [[y m] d]. eauto.
Qed.

End Schedule.

(** X18. The schedule follows the order of the items: of two items of one
    run the later one is published later, by at least two hours, so no two
    items share a slot. *)
Theorem publish_times_increase (now : Datetime.datetime) (i j : nat) :
  Datetime.valid_datetime now ->
  Datetime.toordinal now + Z.of_nat j / 5 <= Datetime.MAXORDINAL ->
  (i < j)%nat ->
  exists di dj,
    publish_datetime (start_of now) i = Ok di
    /\ publish_datetime (start_of now) j = Ok dj
    /\ seconds_of di + 7200 <= seconds_of dj.
Proof.
  intros Hv Hmax Hij.
  assert (Hdiv : Z.of_nat i / 5 <= Z.of_nat j / 5)
    by (apply Z.div_le_mono; lia).
  assert (Hmaxi : Datetime.toordinal now + Z.of_nat i / 5 <= Datetime.MAXORDINAL)
    by lia.
  destruct (publish_datetime_defined now i Hv Hmaxi) as [di Hi].
  destruct (publish_datetime_defined now j Hv Hmax) as [dj Hj].
  exists di, dj. split; [exact Hi|]. split; [exact Hj|].
  rewrite (seconds_of_publish now i di Hv Hmaxi Hi).
  rewrite (seconds_of_publish now j dj Hv Hmax Hj).
  pose proof (Z.div_mod (Z.of_nat i) 5 ltac:(lia)).
  pose proof (Z.div_mod (Z.of_nat j) 5 ltac:(lia)).
  pose proof (Z.mod_pos_bound (Z.of_nat i) 5 ltac:(lia)).
  pose proof (Z.mod_pos_bound (Z.of_nat j) 5 ltac:(lia)).
  lia.
Qed.

Lemma publish_times_increase_witness :
  exists di dj,
    publish_datetime (start_of some_day) 4 = Ok di
    /\ publish_datetime (start_of some_day) 5 = Ok dj
    /\ seconds_of di + 7200 <= seconds_of dj.
Proof.
  apply (publish_times_increase some_day 4 5).
  - vm_compute. repeat split; intro; discriminate.
  - vm_compute. discriminate.
  - lia.
Defined.

(** X19. The schedule cannot leave the calendar: when the day of an item
    would fall after 9999-12-31, computing its publish time raises
    [OverflowError]. *)
Theorem publish_time_overflow (now : Datetime.datetime) (idx : nat) :
  Datetime.valid_datetime now ->
  Datetime.MAXORDINAL < Datetime.toordinal now + Z.of_nat idx / 5 ->
  publish_time (start_of now) idx = Raise OverflowError.
Proof.
  intros Hv Hover.
  pose proof (DatetimeFacts.toordinal_pos now Hv) as Hpos.
  pose proof (toordinal_max now Hv) as Hle.
  pose proof (Z.mod_pos_bound (Z.of_nat idx) 5 ltac:(lia)) as Hslot.
  unfold Datetime.MAXORDINAL in *.
  unfold publish_time, publish_datetime. cbv zeta.
  set (off := Z.of_nat idx / 5) in *.
  set (slot := Z.of_nat idx mod 5) in *.
  destruct (Z_le_gt_dec (Z.abs off) 999999999) as [Hsmall|Hbig].
  - rewrite DatetimeFacts.timedelta_new_normal by lia.
    unfold Datetime.datetime_add. rewrite start_of_ordinal.
    cbn [start_of Datetime.replace_time Datetime.hour Datetime.minute
         Datetime.second Datetime.microsecond].
    rewrite DatetimeFacts.timedelta_new_normal by lia.
    unfold Datetime.timedelta_add.
    cbn [Datetime.td_days Datetime.td_seconds Datetime.td_microseconds].
    destruct (Z_le_gt_dec (Z.abs (Datetime.toordinal now + off)) 999999999)
      as [Hs2|Hb2].
    + rewrite DatetimeFacts.timedelta_new_normal by lia.
      cbn [Datetime.td_days].
      replace (Datetime.toordinal now + off <=? Datetime.MAXORDINAL) with false
        by (symmetry; apply Z.leb_gt; unfold Datetime.MAXORDINAL; lia).
      rewrite andb_false_r. reflexivity.
    + unfold Datetime.timedelta_new. cbv zeta.
      set (t := 0 + 0 * 60 + 9 * 3600 + (0 + 0 * 60 + slot * 2 * 3600) + 0 * 60 + 0 * 3600).
      assert (Ht : 0 <= t < 86400) by (unfold t; lia).
      rewrite (Z.div_small t 86400), (Z.mod_small t 86400) by lia.
      change ((0 + 0) / 1000000) with 0. rewrite !Z.add_0_r.
      rewrite (Z.div_small t 86400) by lia. rewrite Z.add_0_r.
      replace (Z.abs (Datetime.toordinal now + off) >? 999999999) with true
        by (symmetry; apply Z.gtb_lt; lia).
      reflexivity.
  - unfold Datetime.timedelta_new. cbv zeta.
    set (t := 0 + 0 * 60 + slot * 2 * 3600).
    assert (Ht : 0 <= t < 86400) by (unfold t; lia).
    rewrite (Z.div_small t 86400), (Z.mod_small t 86400) by lia.
    change (0 / 1000000) with 0. rewrite !Z.add_0_r.
    rewrite (Z.div_small t 86400) by lia. rewrite Z.add_0_r.
    replace (Z.abs off >? 999999999) with true
      by (symmetry; apply Z.gtb_lt; lia).
    reflexivity.
Qed.

Lemma publish_time_overflow_witness :
  publish_time (start_of (Datetime.mk_datetime 9999 12 31 8 0 0 0)) 5
  = Raise OverflowError.
Proof.
  apply (publish_time_overflow (Datetime.mk_datetime 9999 12 31 8 0 0 0) 5).
  - vm_compute. repeat split; intro; discriminate.
  - vm_compute. reflexivity.
Defined.

(** ** Thumbnail: fonts and failures *)

(** X20. When the Arial font cannot be loaded ([IOError], that is
    [OSError]) the thumbnail is still produced, with the default font: the
    title is measured and drawn with it, centred for that measure. *)
Theorem thumbnail_falls_back_to_default_font (O : oracle)
        (title template out_path : string) (w : world) (iw ih : Z)
        (err : os_error) :
  image_open O w template = Ok (iw, ih) ->
  truetype O w "arial.ttf" 52 = Raise (OSError err) ->
  log (world_after (create_thumbnail O title template out_path) w)
  = log w
    ++ [EvDrawText ((iw - bbox_width (textbbox O DefaultFont title 2)) / 2)
                   (ih - bbox_height (textbbox O DefaultFont title 2) - 50)
                   title DefaultFont;
        EvSave out_path].
Proof.
  intros Hopen Hfont.
  assert (Hf : load_font O "arial.ttf" 52 w = (Ok DefaultFont, w)).
  { unfold load_font, try_except, external_val. rewrite Hfont. reflexivity. }
  unfold world_after.
  rewrite (create_thumbnail_opened O title template out_path w iw ih DefaultFont
             Hopen Hf).
  rewrite !emit_then.
  set (w2 := with_event (with_event w _) _).
  assert (Hs : logs no_events
                 (external (fun w => image_save O w out_path) ;;;
                  write_file out_path Blob)).
  { apply logs_bind; [apply closed_no_events|apply logs_external|intros _; apply logs_write_file];
      apply closed_no_events. }
  pose proof (logs_nothing _ w2 Hs) as E.
  unfold world_after in E. rewrite E. unfold w2. cbn [with_event log].
  rewrite <- app_assoc. reflexivity.
Qed.

Lemma thumbnail_falls_back_to_default_font_witness :
  log (world_after (create_thumbnail fontless "Inspiration: Lao Tzu"
                                     TEMPLATE_THUMB "temp/thumb_1.png")
                   empty_world)
  = [EvDrawText 400 618 "Inspiration: Lao Tzu" DefaultFont;
     EvSave "temp/thumb_1.png"].
Proof.
  rewrite (thumbnail_falls_back_to_default_font fontless "Inspiration: Lao Tzu"
             TEMPLATE_THUMB "temp/thumb_1.png" empty_world 1280 720
             FileNotFoundError); reflexivity.
Defined.

(** X21. A thumbnail is all or nothing before the drawing: when the
    template cannot be opened, or the font fails with anything but an
    [OSError], [create_thumbnail] raises that exception and nothing is
    drawn, saved or written. *)
Theorem thumbnail_failures (O : oracle) (title template out_path : string)
        (w : world) :
  (forall e, image_open O w template = Raise e ->
             create_thumbnail O title template out_path w = (Raise e, w))
  /\ (forall iw ih e,
        image_open O w template = Ok (iw, ih) ->
        truetype O w "arial.ttf" 52 = Raise e -> is_os_error e = false ->
        create_thumbnail O title template out_path w = (Raise e, w)).
Proof.
  split.
  - intros e Hopen. unfold create_thumbnail, bind, external_val.
    rewrite Hopen. reflexivity.
  - intros iw ih e Hopen Hfont He.
    apply (create_thumbnail_no_font O title template out_path w iw ih e Hopen).
    unfold load_font, try_except, external_val. rewrite Hfont, He. reflexivity.
Qed.

(** ** The text of a slide *)

Lemma str_split_nonempty (c : ascii) (s : string) : str_split c s <> [].
Proof.
  destruct s as [|a s]; cbn; [discriminate|].
  destruct (Ascii.eqb a c); [discriminate|].
  destruct (str_split c s); discriminate.
Qed.

Lemma str_join_cons (sep p : string) (rest : list string) :
  rest <> [] -> str_join sep (p :: rest) = p +:+ sep +:+ str_join sep rest.
Proof. destruct rest; [congruence|reflexivity]. Qed.

(** X22. Cutting a text at a character loses nothing: joining the pieces
    with that character gives the text back, there is always at least one
    piece, and no piece holds the character. *)
Theorem str_split_join (c : ascii) (s : string) :
  str_join (String c "") (str_split c s) = s
  /\ str_split c s <> []
  /\ Forall (fun piece => str_mem c piece = false) (str_split c s).
Proof.
  split; [|split; [apply str_split_nonempty|]].
  - induction s as [|a s IH]; [reflexivity|].
    cbn [str_split]. destruct (Ascii.eqb a c) eqn:E.
    + apply Ascii.eqb_eq in E. subst a.
      rewrite str_join_cons by apply str_split_nonempty.
      rewrite IH. reflexivity.
    + pose proof (str_split_nonempty c s) as Hne.
      destruct (str_split c s) as [|piece rest]; [congruence|].
      destruct rest as [|p2 rest].
      * cbn in *. rewrite IH. reflexivity.
      * rewrite str_join_cons in * by discriminate.
        change (String a piece +:+ String c "" +:+ str_join (String c "") (p2 :: rest))
          with (String a (piece +:+ String c "" +:+ str_join (String c "") (p2 :: rest))).
        rewrite IH. reflexivity.
  - induction s as [|a s IH]; [repeat constructor|].
    cbn [str_split]. destruct (Ascii.eqb a c) eqn:E.
    + constructor; [reflexivity|exact IH].
    + pose proof (str_split_nonempty c s) as Hne.
      destruct (str_split c s) as [|piece rest]; [congruence|].
      inversion IH as [|? ? Hp Hr]; subst.
      constructor; [|exact Hr]. cbn. rewrite E. exact Hp.
Qed.

Lemma wrap_paragraphs_length (wrap : string -> list string)
      (paras : list string) :
  (length paras <= length (wrap_paragraphs wrap paras))%nat.
Proof.
  induction paras as [|p paras IH]; [reflexivity|].
  cbn [wrap_paragraphs]. rewrite length_app.
  destruct (wrap p); cbn [length]; lia.
Qed.

Lemma draw_lines_prefix (measure : string -> bbox_t) (width height y : Z)
      (lines : list string) :
  exists rest,
    lines = map dr_text (draw_lines measure width height y lines) ++ rest.
Proof.
  revert y. induction lines as [|line lines IH]; intros y; [exists []; reflexivity|].
  cbn [draw_lines map]. cbv zeta.
  destruct (_ >? _).
  - exists lines. reflexivity.
  - destruct (IH (y + bbox_height (measure line) + 12)) as [rest E].
    exists rest. cbn [map app]. f_equal. exact E.
Qed.

Lemma draw_lines_within (measure : string -> bbox_t) (width height y : Z)
      (lines : list string) :
  y <= height - 60 ->
  Forall (fun d => dr_y d <= height - 60
                   /\ dr_x d = (width - bbox_width (measure (dr_text d))) / 2)
         (draw_lines measure width height y lines).
Proof.
  revert y. induction lines as [|line lines IH]; intros y Hy; [constructor|].
  cbn [draw_lines]. cbv zeta. constructor; [split; [exact Hy|reflexivity]|].
  destruct (_ >? _) eqn:E; [constructor|].
  apply IH. lia.
Qed.

(** X23. Whatever the quote and however it wraps, the slide shows text: the
    first line is drawn at the top offset 60; the lines drawn are the first
    lines of the wrapped text, in order, each centred; every line starts no
    lower than 60 pixels above the bottom edge, and the lines after the last
    one that fits are dropped without an error. *)
Theorem slide_layout_within_frame (measure : string -> bbox_t)
        (wrap : string -> list string) (text : string) :
  (exists first others,
     slide_layout measure wrap text = first :: others /\ dr_y first = 60)
  /\ (exists dropped,
        slide_lines wrap text
        = map dr_text (slide_layout measure wrap text) ++ dropped)
  /\ Forall (fun d => dr_y d <= 1220
                      /\ dr_x d = (720 - bbox_width (measure (dr_text d))) / 2)
            (slide_layout measure wrap text).
Proof.
  unfold slide_layout. split; [|split].
  - pose proof (wrap_paragraphs_length wrap (str_split "010" text)) as Hlen.
    pose proof (str_split_nonempty "010" text) as Hne.
    unfold slide_lines.
    destruct (str_split "010" text) as [|p ps]; [congruence|].
    destruct (wrap_paragraphs wrap (p :: ps)) as [|line lines];
      [cbn in Hlen; lia|].
    cbn [draw_lines]. cbv zeta. eexists. eexists. split; reflexivity.
  - apply draw_lines_prefix.
  - apply (draw_lines_within measure 720 1280 60). lia.
Qed.

Lemma draw_lines_descend (measure : string -> bbox_t) (width height y : Z)
      (lines : list string) :
  (forall s, 0 <= bbox_height (measure s)) ->
  Forall (fun d => y <= dr_y d) (draw_lines measure width height y lines)
  /\ forall i a b,
       draw_lines measure width height y lines !! i = Some a ->
       draw_lines measure width height y lines !! S i = Some b ->
       dr_y b = dr_y a + bbox_height (measure (dr_text a)) + 12.
Proof.
  intros Hh. revert y. induction lines as [|line lines IH]; intros y.
  - split; [constructor|]. intros i a b H. destruct i; discriminate.
  - cbn [draw_lines]. cbv zeta.
    destruct (_ >? _) eqn:E.
    + split; [repeat constructor; cbn; lia|].
      intros i a b _ H. destruct i; discriminate.
    + destruct (IH (y + bbox_height (measure line) + 12)) as [IH1 IH2].
      split.
      * constructor; [cbn; lia|].
        eapply Forall_impl; [exact IH1|]. cbn. intros d Hd.
        specialize (Hh line). lia.
      * intros i a b Ha Hb. destruct i as [|i].
        -- injection Ha as <-. cbn [dr_y dr_text].
           destruct lines as [|l2 lines]; [discriminate|].
           cbn [draw_lines] in Hb. cbv zeta in Hb. injection Hb as <-.
           reflexivity.
        -- exact (IH2 i a b Ha Hb).
Qed.

(** X24. With a measure that gives no negative height, the drawn lines go
    down the slide: each starts where the one before started plus its height
    and a gap of 12 pixels, and none starts above the top offset 60. *)
Theorem slide_lines_descend (measure : string -> bbox_t)
        (wrap : string -> list string) (text : string) :
  (forall s, 0 <= bbox_height (measure s)) ->
  Forall (fun d => 60 <= dr_y d) (slide_layout measure wrap text)
  /\ forall i a b,
       slide_layout measure wrap text !! i = Some a ->
       slide_layout measure wrap text !! S i = Some b ->
       dr_y b = dr_y a + bbox_height (measure (dr_text a)) + 12.
Proof. intros Hh. apply draw_lines_descend. exact Hh. Qed.

Lemma slide_lines_descend_witness :
  Forall (fun d => 60 <= dr_y d)
         (slide_layout fixed_measure (fun s => [s; s])
                       ("Stay" +:+ newline +:+ "curious")).
Proof.
  apply (slide_lines_descend fixed_measure (fun s => [s; s])
           ("Stay" +:+ newline +:+ "curious")).
  intros s. cbn. lia.
Defined.

(** Two paragraphs, each wrapped into two lines of height 52. *)
Example slide_layout_example :
  map dr_y (slide_layout fixed_measure (fun s => [s; s])
                         ("Stay" +:+ newline +:+ "curious"))
  = [60; 124; 188; 252].
Proof. vm_compute. reflexivity. Qed.

(** ** File names *)

Lemma str_of_nat_inj (i j : nat) : str_of_nat i = str_of_nat j -> i = j.
Proof.
  unfold str_of_nat. intros H.
  apply DecimalNat.Unsigned.to_uint_inj.
  assert (Hnn : forall n, Nat.to_uint n <> Decimal.Nil).
  { intros n. rewrite <- (DecimalNat.Unsigned.of_to n) at 1.
    rewrite DecimalNat.Unsigned.to_of. apply DecimalFacts.unorm_nonnil. }
  pose proof (NilZero.usu (Nat.to_uint i) (Hnn i)) as Hi.
  pose proof (NilZero.usu (Nat.to_uint j) (Hnn j)) as Hj.
  rewrite H in Hi. rewrite Hi in Hj. injection Hj as ->. reflexivity.
Qed.

Lemma str_length_app (a b : string) :
  String.length (a +:+ b) = (String.length a + String.length b)%nat.
Proof.
  induction a as [|x a IH]; [reflexivity|].
  change (String x a +:+ b) with (String x (a +:+ b)). cbn. rewrite IH. reflexivity.
Qed.

Lemma append_inj_l (t a b : string) : a +:+ t = b +:+ t -> a = b.
Proof.
  revert b. induction a as [|x a IH]; intros [|y b] H.
  - reflexivity.
  - apply (f_equal String.length) in H.
    rewrite !str_length_app in H. cbn in H. lia.
  - apply (f_equal String.length) in H.
    rewrite !str_length_app in H. cbn in H. lia.
  - change (String x (a +:+ t) = String y (b +:+ t)) in H.
    injection H as -> H. rewrite (IH b H). reflexivity.
Qed.

Lemma artifact_path_inj (kind ext : string) (i j : nat) :
  path_join OUTPUT_DIR (kind +:+ str_of_nat i +:+ ext)
  = path_join OUTPUT_DIR (kind +:+ str_of_nat j +:+ ext) ->
  i = j.
Proof.
  unfold path_join, OUTPUT_DIR. intros H.
  change ("temp" +:+ "/" +:+ kind +:+ str_of_nat i +:+ ext)
    with (String "t" (String "e" (String "m" (String "p" (String "/"
            (kind +:+ str_of_nat i +:+ ext)))))) in H.
  change ("temp" +:+ "/" +:+ kind +:+ str_of_nat j +:+ ext)
    with (String "t" (String "e" (String "m" (String "p" (String "/"
            (kind +:+ str_of_nat j +:+ ext)))))) in H.
  injection H as H.
  induction kind as [|x kind IH].
  - apply str_of_nat_inj. apply (append_inj_l ext). exact H.
  - apply IH. injection H as H. exact H.
Qed.

(** X25. The file names of a run never collide: the four artifact paths of
    an item are different from each other, and a path of one item is never
    a path of another item. *)
Theorem artifact_paths_unique (i : nat) :
  NoDup (artifact_paths i)
  /\ forall (j : nat) (p : string),
       p ∈ artifact_paths i -> p ∈ artifact_paths j -> i = j.
Proof.
  assert (Hin : forall k p, p ∈ artifact_paths k ->
            p = voice_path k \/ p = slide_path k \/ p = video_path k
            \/ p = thumb_path k).
  { intros k p Hp. unfold artifact_paths in Hp.
    repeat (apply elem_of_cons in Hp as [Hp|Hp]; [auto|]).
    inversion Hp. }
  split.
  - unfold artifact_paths. repeat constructor;
      rewrite ?elem_of_cons, ?elem_of_nil;
      unfold voice_path, slide_path, video_path, thumb_path, path_join, OUTPUT_DIR;
      intros H; repeat destruct H as [H|H]; try discriminate H; exact H.
  - intros j p Hi Hj. apply Hin in Hi. apply Hin in Hj.
    destruct Hi as [ -> | [ -> | [ -> | -> ] ] ];
      destruct Hj as [H|[H|[H|H]]];
      try (unfold voice_path, slide_path, video_path, thumb_path, path_join,
             OUTPUT_DIR in H; discriminate H).
    + apply (artifact_path_inj "voice_" ".mp3"). exact H.
    + apply (artifact_path_inj "slide_" ".mp4"). exact H.
    + apply (artifact_path_inj "video_" ".mp4"). exact H.
    + apply (artifact_path_inj "thumb_" ".png"). exact H.
Qed.

(** ** Clean-up: what is and is not removed *)

Lemma unlink_other (p q : string) (m : gmap string node) :
  p <> q -> unlink q m !! p = m !! p.
Proof.
  intros Hne. unfold unlink.
  destruct (m !! q) as [[c|c|]|]; try reflexivity.
  apply lookup_delete_ne. congruence.
Qed.

Lemma unlink_all_other (paths : list string) (p : string)
      (m : gmap string node) :
  p ∉ paths -> unlink_all paths m !! p = m !! p.
Proof.
  revert m. induction paths as [|q paths IH]; intros m Hp; [reflexivity|].
  cbn [unlink_all foldl]. apply not_elem_of_cons in Hp as [Hne Hp].
  change (unlink_all paths (unlink q m) !! p = m !! p).
  rewrite (IH _ Hp). apply unlink_other. exact Hne.
Qed.

(** X26. The clean-up of an item touches nothing but the four artifact
    paths of that item: every other file, the token file and the files of
    the other items among them, is what it was. *)
Theorem cleanup_keeps_other_files (idx : nat) (w : world) (p : string) :
  p ∉ artifact_paths idx ->
  fs (world_after (cleanup (artifact_paths idx)) w) !! p = fs w !! p.
Proof.
  intros Hp. unfold world_after.
  rewrite (cleanup_run _ w (artifact_paths_no_nul idx)). cbn [snd fs].
  apply unlink_all_other. exact Hp.
Qed.

Lemma cleanup_keeps_other_files_witness :
  fs (world_after (cleanup (artifact_paths 0)) (world_with_token true false true))
  !! TOKEN_FILE
  = Some (Regular (Pickled true false true)).
Proof.
  rewrite (cleanup_keeps_other_files 0 (world_with_token true false true)
             TOKEN_FILE).
  - reflexivity.
  - unfold artifact_paths, voice_path, slide_path, video_path, thumb_path,
      path_join, OUTPUT_DIR, TOKEN_FILE.
    rewrite !not_elem_of_cons. repeat split; try discriminate.
    apply not_elem_of_nil.
Defined.

(** X27. Whenever the loop body of an item returns, after an accepted
    upload as after one refused with status 403, none of the item's four
    artifact paths holds a regular file any more. *)
Theorem process_item_leaves_no_artifact (O : oracle)
        (start : Datetime.datetime) (idx : nat) (entry : pydict)
        (w w' : world) :
  process_item O start idx entry w = (Ok tt, w') ->
  forall p, p ∈ artifact_paths idx -> not_regular (fs w') p.
Proof.
  intros H p Hp. unfold process_item in H.
  apply bind_ok in H as (args & w1 & _ & H).
  apply bind_ok in H as ([] & w2 & _ & H).
  rewrite (cleanup_run _ w2 (artifact_paths_no_nul idx)) in H.
  assert (E : fs w' = unlink_all (artifact_paths idx) (fs w2))
    by (injection H as <-; reflexivity).
  rewrite E. apply unlink_all_not_regular. exact Hp.
Qed.

Lemma process_item_leaves_no_artifact_witness :
  not_regular
    (fs (world_after (process_item refusing_first (start_of some_day) 0 maya_entry)
                     empty_world))
    (video_path 0).
Proof.
  unfold world_after.
  destruct (process_item refusing_first (start_of some_day) 0 maya_entry
                         empty_world) as [[[]|e] w'] eqn:E;
    [|vm_compute in E; discriminate].
  cbn [snd].
  apply (process_item_leaves_no_artifact refusing_first (start_of some_day)
           0 maya_entry empty_world w' E).
  unfold artifact_paths. rewrite !elem_of_cons. auto.
Defined.
